(** * jewelry: the [ArgChecker] type-hint enforcement decorator

    A shallow embedding of [decorators/arg_checker.py] and the properties of
    its normaliser ([_make_typings_comparable]) and of its two argument
    checks ([_check_positional_args], [_check_keyword_args]).

    Python objects are modelled as far as the checker looks at them:
    - a class is its name together with its chain of base classes, which is
      what [isinstance] walks;
    - a type hint is a class, [typing.Any], a subscripted [typing] alias
      (as built by Python 3.7/3.8, the versions the code's
      [typing._GenericAlias] test is written for), a plain tuple of hints,
      or any other object;
    - a runtime value is known by its class and, for containers, its items;
    - the hints dictionary is a [gmap] (the loops only read and overwrite
      the entry of the key at hand), the keyword arguments are an
      association list in call order (the order decides which failure is
      raised first);
    - exceptions are the values of [exn], carried by the [result] monad;
      an [assert] is executed (the interpreter does not run with [-O]). *)

From Stdlib Require Import ZArith.
From stdpp Require Import base option list strings gmap.

#[local] Set Warnings "-register-all".

Local Open Scope string_scope.

(** ** Classes *)

(** A class object: [object], or a named class with its base class. *)
Inductive pytype : Type :=
  | PyObject
  | PyClass (name : string) (base : pytype).

#[global] Instance pytype_eq_dec : EqDecision pytype.
Proof. solve_decision. Defined.

(** [issubclass(c, d)]: [d] occurs in the base chain of [c] ([c] included). *)
Fixpoint issubclass (c d : pytype) : bool :=
  if decide (c = d) then true
  else match c with
       | PyObject => false
       | PyClass _ base => issubclass base d
       end.

Module builtins.
Definition object : pytype := PyObject.
Definition int : pytype := PyClass "int" object.
Definition str : pytype := PyClass "str" object.
Definition float : pytype := PyClass "float" object.
Definition NoneType : pytype := PyClass "NoneType" object.
Definition dict : pytype := PyClass "dict" object.
Definition tuple : pytype := PyClass "tuple" object.
Definition list : pytype := PyClass "list" object.
(** [bool] is a subclass of [int]. *)
Definition bool : pytype := PyClass "bool" int.
End builtins.

Module np.
(** [np.int64.__mro__] is
    [(int64, signedinteger, integer, number, generic, object)]. *)
Definition generic : pytype := PyClass "numpy.generic" builtins.object.
Definition number : pytype := PyClass "numpy.number" generic.
Definition integer : pytype := PyClass "numpy.integer" number.
Definition signedinteger : pytype := PyClass "numpy.signedinteger" integer.
Definition int64 : pytype := PyClass "numpy.int64" signedinteger.
End np.

Module collections.
Definition OrderedDict : pytype := PyClass "collections.OrderedDict" builtins.dict.
End collections.

(** ** Type hints *)

(** The [__origin__] of a [typing._GenericAlias]. *)
Inductive origin : Type :=
  | OClass (c : pytype)        (* List[..] -> list, Set[..] -> set, ... *)
  | OUnion                     (* Union[..] and Optional[..] *)
  | OClassVar                  (* ClassVar[..] *)
  | OForm (name : string).     (* any other special form *)

(** The objects found in [full_argspec.annotations], and the objects the
    normaliser puts in their place. *)
Inductive hint : Type :=
  | HClass (c : pytype)                              (* int, str, a user class *)
  | HAny                                             (* typing.Any *)
  | HGenericAlias (orig : origin) (args : list hint) (* List[int], Union[int, str] *)
  | HTuple (items : list hint)                       (* (int, str) *)
  | HObject (repr : string).                         (* 'Foo', None, 5, ... *)

Module typing.
Definition Any : hint := HAny.
Definition Union (members : list hint) : hint := HGenericAlias OUnion members.
(** [Optional[X]] is [Union[X, None]]. *)
Definition Optional (x : hint) : hint := Union [x; HClass builtins.NoneType].
Definition List (elem : hint) : hint := HGenericAlias (OClass builtins.list) [elem].
Definition Dict (key val : hint) : hint := HGenericAlias (OClass builtins.dict) [key; val].
Definition Tuple (elems : list hint) : hint := HGenericAlias (OClass builtins.tuple) elems.
End typing.

(** ** Runtime values *)

Inductive value : Type :=
  | VNone
  | VBool (b : bool)
  | VInt (z : Z)
  | VNpInt64 (z : Z)
  | VFloat (mantissa exponent : Z)
  | VStr (s : string)
  | VList (items : list value)
  | VTuple (items : list value)
  | VDict (items : list (value * value))
  | VInstance (cls : pytype).      (* an instance of any other class *)

(** [type(v)]. *)
Definition type_of (v : value) : pytype :=
  match v with
  | VNone => builtins.NoneType
  | VBool _ => builtins.bool
  | VInt _ => builtins.int
  | VNpInt64 _ => np.int64
  | VFloat _ _ => builtins.float
  | VStr _ => builtins.str
  | VList _ => builtins.list
  | VTuple _ => builtins.tuple
  | VDict _ => builtins.dict
  | VInstance cls => cls
  end.

(** ** Exceptions *)

Inductive exn : Type :=
  (* f"arg {arg_name} is type {type(arg)}; doesn't match {accepted_types}" *)
  | AssertionError (arg_name : string) (actual : pytype) (accepted_types : hint)
  | KeyError (key : string)
  | IndexError
  | TypeError.

Inductive result (A : Type) : Type :=
  | Ok (a : A)
  | Raise (e : exn).
Arguments Ok {A} a.
Arguments Raise {A} e.

#[global] Instance result_ret : MRet result := @Ok.
#[global] Instance result_bind : MBind result :=
  λ A B f m, match m with Ok a => f a | Raise e => Raise e end.

(** [d[k]] on a dictionary and [l[i]] on a list. *)
Definition dict_getitem {V} (d : gmap string V) (k : string) : result V :=
  match d !! k with Some v => Ok v | None => Raise (KeyError k) end.

Definition list_getitem {A} (l : list A) (i : nat) : result A :=
  match l !! i with Some x => Ok x | None => Raise IndexError end.

(** [kwargs[k]]: the keys of a keyword dictionary are pairwise distinct. *)
Fixpoint kwargs_getitem (kwargs : list (string * value)) (k : string) : result value :=
  match kwargs with
  | [] => Raise (KeyError k)
  | (k', v) :: rest => if decide (k' = k) then Ok v else kwargs_getitem rest k
  end.

(** [for i, x in enumerate(xs): body], counting from [i]; a [continue] in
    the body is the body returning, an exception ends the loop. *)
Fixpoint for_enumerate {A} (body : nat → A → result unit) (i : nat) (xs : list A)
  : result unit :=
  match xs with
  | [] => Ok ()
  | x :: rest => body i x ≫= λ _, for_enumerate body (S i) rest
  end.

(** [for x in xs: body]. *)
Fixpoint for_each {A} (body : A → result unit) (xs : list A) : result unit :=
  match xs with
  | [] => Ok ()
  | x :: rest => body x ≫= λ _, for_each body rest
  end.

(** ** Python and [typing_inspect] primitives *)

(** [typing_inspect.get_origin]: the origin of a generic alias, [None] for
    [ClassVar] and for every other object. *)
Definition get_origin (tp : hint) : option origin :=
  match tp with
  | HGenericAlias OClassVar _ => None
  | HGenericAlias orig _ => Some orig
  | _ => None
  end.

(** [orig_type in [list, dict, tuple]], returning the class found. *)
Definition in_list_dict_tuple (orig_type : option origin) : option pytype :=
  match orig_type with
  | Some (OClass c) =>
      if decide (c = builtins.list) then Some c
      else if decide (c = builtins.dict) then Some c
      else if decide (c = builtins.tuple) then Some c
      else None
  | _ => None
  end.

(** [type(arg_type) == typing._GenericAlias]. *)
Definition is_GenericAlias (arg_type : hint) : bool :=
  match arg_type with HGenericAlias _ _ => true | _ => false end.

(** [arg_type.__args__]. *)
Definition __args__ (arg_type : hint) : list hint :=
  match arg_type with HGenericAlias _ args => args | _ => [] end.

(** [x == int]. *)
Definition eq_int (x : hint) : bool :=
  match x with HClass c => bool_decide (c = builtins.int) | _ => false end.

(** [int in items]. *)
Definition int_in (items : list hint) : bool := existsb eq_int items.

(** [isinstance(x, tuple)]. *)
Definition is_tuple (x : hint) : bool :=
  match x with HTuple _ => true | _ => false end.

(** [int in x], for a tuple [x]. *)
Definition contains_int (x : hint) : bool :=
  match x with HTuple items => int_in items | _ => false end.

(** [x += more], for a tuple [x]. *)
Definition tuple_iadd (x : hint) (more : list hint) : hint :=
  match x with HTuple items => HTuple (items ++ more) | _ => x end.

(** [x == typing.Any]. *)
Definition eq_Any (x : hint) : bool :=
  match x with HAny => true | _ => false end.

(** [isinstance(inst, cls)] for an instance of class [ty]: a class is
    tested against the base chain; a tuple is tried item by item, the first
    item that holds or raises deciding; anything else is no class and
    raises [TypeError]. *)
Fixpoint isinstance_of (ty : pytype) (cls : hint) : result bool :=
  match cls with
  | HClass c => Ok (issubclass ty c)
  | HTuple items =>
      (fix any_of (items : list hint) : result bool :=
         match items with
         | [] => Ok false
         | item :: rest =>
             match isinstance_of ty item with
             | Ok false => any_of rest
             | r => r
             end
         end) items
  | HAny | HGenericAlias _ _ | HObject _ => Raise TypeError
  end.

Definition isinstance (inst : value) (cls : hint) : result bool :=
  isinstance_of (type_of inst) cls.

(** [assert cond, msg]. *)
Definition py_assert (cond : bool) (msg : exn) : result unit :=
  if cond then Ok () else Raise msg.

(** ** [ArgChecker] *)

(** The body of the loop of [_make_typings_comparable], for one entry:
    [arg_type] is the entry read at the top of the body, the result is the
    entry as the body leaves it. *)
Definition make_typing_comparable (arg_type : hint) : hint :=
  let orig_type := get_origin arg_type in
  match in_list_dict_tuple orig_type with
  | Some orig_type => HClass orig_type
  | None =>
      let entry := arg_type in
      let entry :=
        if is_GenericAlias arg_type then
          let entry := HTuple (__args__ arg_type) in
          if contains_int entry then tuple_iadd entry [HClass np.int64]
          else entry
        else entry in
      if eq_int arg_type then HTuple [arg_type; HClass np.int64]
      else if is_tuple arg_type && contains_int arg_type
           then tuple_iadd entry [HClass np.int64]
           else entry
  end.

(** Every key of the copy is visited once and only its own entry is
    overwritten. *)
Definition _make_typings_comparable (types_dict : gmap string hint)
  : gmap string hint :=
  make_typing_comparable <$> types_dict.

(** The body of the loop of [_check_positional_args]. *)
Definition check_positional_arg (arg_names : list string)
    (type_hints : gmap string hint) (i : nat) (arg : value) : result unit :=
  arg_name ← list_getitem arg_names i;
  if decide (arg_name = "self") then Ok ()
  else
    accepted_types ← dict_getitem type_hints arg_name;
    if eq_Any accepted_types then Ok ()
    else
      ok ← isinstance arg accepted_types;
      py_assert ok (AssertionError arg_name (type_of arg) accepted_types).

Definition _check_positional_args (args : list value) (arg_names : list string)
    (type_hints : gmap string hint) : result unit :=
  for_enumerate (check_positional_arg arg_names type_hints) 0 args.

(** The body of the loop of [_check_keyword_args]. *)
Definition check_keyword_arg (kwargs : list (string * value))
    (type_hints : gmap string hint) (arg_name : string) : result unit :=
  accepted_types ← dict_getitem type_hints arg_name;
  if eq_Any accepted_types then Ok ()
  else
    arg ← kwargs_getitem kwargs arg_name;
    ok ← isinstance arg accepted_types;
    py_assert ok (AssertionError arg_name (type_of arg) accepted_types).

Definition _check_keyword_args (kwargs : list (string * value))
    (type_hints : gmap string hint) : result unit :=
  for_each (check_keyword_arg kwargs type_hints) kwargs.*1.

(** The two checks at the head of [func_w_arg_dtypes_validated], in the
    order they are called. *)
Definition validate_call (args : list value) (kwargs : list (string * value))
    (arg_names : list string) (type_hints : gmap string hint) : result unit :=
  _check_positional_args args arg_names type_hints ≫= λ _,
  _check_keyword_args kwargs type_hints.

(** What [inspect.getfullargspec(func)] hands to the decorator. *)
Record FullArgSpec : Type := {
  spec_args : list string;
  annotations : gmap string hint;
}.

(** A Python callable: it takes the positional and keyword arguments, may
    change the state of the program and returns or raises. *)
Definition callable (St R : Type) : Type :=
  list value → list (string * value) → St → result R * St.

Section Decorator.
Context {St R : Type}.
Variable func : callable St R.

Definition func_w_arg_dtypes_validated (arg_names : list string)
    (type_hints : gmap string hint) : callable St R :=
  λ args kwargs st,
    match validate_call args kwargs arg_names type_hints with
    | Raise e => (Raise e, st)
    | Ok _ => func args kwargs st
    end.

Definition enforce_type_hints (full_argspec : FullArgSpec) : callable St R :=
  let arg_names := spec_args full_argspec in
  let type_hints := annotations full_argspec in
  let type_hints := _make_typings_comparable type_hints in
  func_w_arg_dtypes_validated arg_names type_hints.
End Decorator.

(** ** The checks of one call, listed *)

(** The outcome of the check of every positional argument, then of every
    keyword, each taken on its own. *)
Definition positional_verdicts (args : list value) (arg_names : list string)
    (type_hints : gmap string hint) : list (result unit) :=
  imap (check_positional_arg arg_names type_hints) args.

Definition keyword_verdicts (kwargs : list (string * value))
    (type_hints : gmap string hint) : list (result unit) :=
  check_keyword_arg kwargs type_hints <$> kwargs.*1.

Definition call_verdicts (full_argspec : FullArgSpec) (args : list value)
    (kwargs : list (string * value)) : list (result unit) :=
  let type_hints := _make_typings_comparable (annotations full_argspec) in
  positional_verdicts args (spec_args full_argspec) type_hints
  ++ keyword_verdicts kwargs type_hints.

(** The exception of the first verdict that is one. *)
Fixpoint first_failure (verdicts : list (result unit)) : option exn :=
  match verdicts with
  | [] => None
  | Ok _ :: rest => first_failure rest
  | Raise e :: _ => Some e
  end.

(** ** Accepted classes *)

(** The members of a declaration, with [np.int64] after them when [int] is
    one of them. *)
Definition widened (cs : list pytype) : list pytype :=
  if bool_decide (builtins.int ∈ cs) then cs ++ [np.int64] else cs.

(** A value is an instance of one of the classes [cs]: its class is one of
    them or a subclass of one of them. *)
Definition instance_of_some (cs : list pytype) (v : value) : bool :=
  existsb (issubclass (type_of v)) cs.

(** The verdict on [arg] supplied for parameter [a] whose canonical entry
    is the tuple of the classes [cs]. *)
Definition verdict_for_classes (a : string) (cs : list pytype) (arg : value)
  : result unit :=
  if instance_of_some cs arg then Ok ()
  else Raise (AssertionError a (type_of arg) (HTuple (HClass <$> cs))).

(** ** Arguments that pass, arguments that mismatch *)







(** ** Sample callables *)

(** A body that counts its executions and returns [None]. *)
Definition counting_body : callable nat value :=
  λ _ _ calls, (Ok VNone, S calls).

(** [def f(a: int, b: str)]. *)
Definition spec_int_str : FullArgSpec :=
  {| spec_args := ["a"; "b"];
     annotations := {[ "a" := HClass builtins.int; "b" := HClass builtins.str ]} |}.

(** [def f(a: int)]. *)
Definition spec_a_int : FullArgSpec :=
  {| spec_args := ["a"]; annotations := {[ "a" := HClass builtins.int ]} |}.

(** [def f(b: Optional[str])]. *)
Definition spec_b_optional_str : FullArgSpec :=
  {| spec_args := ["b"];
     annotations := {[ "b" := typing.Optional (HClass builtins.str) ]} |}.

(** [def f(d: Union[int, str])]. *)
Definition spec_d_union_int_str : FullArgSpec :=
  {| spec_args := ["d"];
     annotations :=
       {[ "d" := typing.Union [HClass builtins.int; HClass builtins.str] ]} |}.

(** [def f(m: Dict[str, int])]. *)
Definition spec_m_dict : FullArgSpec :=
  {| spec_args := ["m"];
     annotations :=
       {[ "m" := typing.Dict (HClass builtins.str) (HClass builtins.int) ]} |}.

(** [def f(e)]: no annotation at all. *)
Definition spec_e_undeclared : FullArgSpec :=
  {| spec_args := ["e"]; annotations := ∅ |}.

(** [def f(a: 'Foo')]: a forward reference, kept as a string. *)
Definition spec_a_forward_ref : FullArgSpec :=
  {| spec_args := ["a"]; annotations := {[ "a" := HObject "'Foo'" ]} |}.

(** [def f(c: Any)]. *)
Definition spec_c_any : FullArgSpec :=
  {| spec_args := ["c"]; annotations := {[ "c" := typing.Any ]} |}.

(** [def m(self, x: str)], a method. *)
Definition spec_method : FullArgSpec :=
  {| spec_args := ["self"; "x"];
     annotations := {[ "x" := HClass builtins.str ]} |}.

(** [def f(a: int, self: str)], a plain function. *)
Definition spec_plain_with_self : FullArgSpec :=
  {| spec_args := ["a"; "self"];
     annotations := {[ "a" := HClass builtins.int; "self" := HClass builtins.str ]} |}.

(** [def f(x: float)]. *)
Definition spec_x_float : FullArgSpec :=
  {| spec_args := ["x"]; annotations := {[ "x" := HClass builtins.float ]} |}.

(** The built-in class [set]. *)
Definition set_class : pytype := PyClass "set" builtins.object.

(** [def f(s: Set[int])]. *)
Definition spec_s_set_int : FullArgSpec :=
  {| spec_args := ["s"];
     annotations :=
       {[ "s" := HGenericAlias (OClass set_class) [HClass builtins.int] ]} |}.

(** [def f(t: (int, str))]: a plain tuple as annotation. *)
Definition spec_t_tuple_hint : FullArgSpec :=
  {| spec_args := ["t"];
     annotations := {[ "t" := HTuple [HClass builtins.int; HClass builtins.str] ]} |}.

(** [def f(o: Optional[List[int]])]. *)
Definition spec_o_optional_list : FullArgSpec :=
  {| spec_args := ["o"];
     annotations :=
       {[ "o" := typing.Optional (typing.List (HClass builtins.int)) ]} |}.

(** [def f(o: Union[str, List[int]])]. *)
Definition spec_o_str_or_list : FullArgSpec :=
  {| spec_args := ["o"];
     annotations :=
       {[ "o" := typing.Union [HClass builtins.str;
                               typing.List (HClass builtins.int)] ]} |}.

(** [def m(self: str, x: str)], a method whose receiver is annotated. *)
Definition spec_method_self_str : FullArgSpec :=
  {| spec_args := ["self"; "x"];
     annotations := {[ "self" := HClass builtins.str; "x" := HClass builtins.str ]} |}.


(** * Properties *)

(** ** Loops *)

Lemma bind_Ok {A B} (f : A → result B) (a : A) : Ok a ≫= f = f a.
Proof. reflexivity. Qed.

Lemma for_each_first_failure {A} (body : A → result unit) (xs : list A) :
  for_each body xs =
  match first_failure (body <$> xs) with Some e => Raise e | None => Ok () end.
Proof.
  induction xs as [|x xs IH]; [reflexivity|].
  cbn [for_each fmap list_fmap first_failure].
  destruct (body x) as [[]|e]; [rewrite bind_Ok; exact IH | reflexivity].
Qed.

Lemma for_enumerate_first_failure {A} (body : nat → A → result unit) (xs : list A) :
  ∀ i, for_enumerate body i xs =
       match first_failure (imap (λ j, body (i + j)) xs) with
       | Some e => Raise e
       | None => Ok ()
       end.
Proof.
  induction xs as [|x xs IH]; intros i; [reflexivity|].
  cbn [for_enumerate imap first_failure]. rewrite Nat.add_0_r.
  destruct (body i x) as [[]|e]; [rewrite bind_Ok | reflexivity].
  rewrite IH.
  rewrite (imap_ext (λ j, body (S i + j)) ((λ j, body (i + j)) ∘ S) xs);
    [reflexivity|].
  intros j y _. cbn. f_equal. lia.
Qed.

Lemma first_failure_app (v1 v2 : list (result unit)) :
  first_failure (v1 ++ v2) =
  match first_failure v1 with Some e => Some e | None => first_failure v2 end.
Proof.
  induction v1 as [|[[]|e] v1 IH]; cbn; [reflexivity | exact IH | reflexivity].
Qed.

(** The first failure sits at the least index that holds an exception. *)
Lemma first_failure_Some (verdicts : list (result unit)) (k : nat) (e0 : exn) :
  verdicts !! k = Some (Raise e0) →
  ∃ j e, (j ≤ k)%nat ∧ verdicts !! j = Some (Raise e)
         ∧ (∀ j', (j' < j)%nat → verdicts !! j' = Some (Ok ()))
         ∧ first_failure verdicts = Some e.
Proof.
  revert k. induction verdicts as [|[[]|e] verdicts IH]; intros k Hk.
  - discriminate.
  - destruct k as [|k]; [discriminate|].
    destruct (IH k Hk) as (j & e & Hj & Hje & Hbefore & Hff).
    exists (S j), e. repeat split; [lia | exact Hje | | exact Hff].
    intros [|j'] Hlt; [reflexivity | apply Hbefore; lia].
  - exists 0, e. repeat split; [lia | intros j' Hlt; lia].
Qed.

Lemma first_failure_None (verdicts : list (result unit)) :
  first_failure verdicts = None ↔ Forall (λ v, v = Ok ()) verdicts.
Proof.
  induction verdicts as [|[[]|e] verdicts IH]; cbn.
  - split; [constructor | reflexivity].
  - rewrite IH. split; [by constructor | by inversion 1].
  - split; [discriminate | inversion 1; discriminate].
Qed.

(** The two checks of a call raise the first failure of its verdicts. *)
Lemma validate_call_first_failure (args : list value)
    (kwargs : list (string * value)) (arg_names : list string)
    (type_hints : gmap string hint) :
  validate_call args kwargs arg_names type_hints =
  match first_failure (positional_verdicts args arg_names type_hints
                       ++ keyword_verdicts kwargs type_hints) with
  | Some e => Raise e
  | None => Ok ()
  end.
Proof.
  unfold validate_call, _check_positional_args, _check_keyword_args.
  rewrite for_enumerate_first_failure, for_each_first_failure, first_failure_app.
  unfold positional_verdicts, keyword_verdicts.
  destruct (first_failure (imap _ args)); reflexivity.
Qed.

(** ** Fail-fast validation *)

(** When every check of a call passes, the call is the call of the wrapped
    callable. *)
Lemma enforce_type_hints_runs_body {St R} (func : callable St R)
    (full_argspec : FullArgSpec) (args : list value)
    (kwargs : list (string * value)) (st : St) :
  Forall (λ v, v = Ok ()) (call_verdicts full_argspec args kwargs) →
  enforce_type_hints func full_argspec args kwargs st = func args kwargs st.
Proof.
  intros Hall. apply first_failure_None in Hall.
  unfold enforce_type_hints, func_w_arg_dtypes_validated.
  rewrite validate_call_first_failure.
  unfold call_verdicts in Hall. cbn zeta in Hall. by rewrite Hall.
Qed.

(** ** Instance checks *)

Lemma isinstance_of_tuple_cons (ty : pytype) (item : hint) (rest : list hint) :
  isinstance_of ty (HTuple (item :: rest)) =
  match isinstance_of ty item with
  | Ok false => isinstance_of ty (HTuple rest)
  | r => r
  end.
Proof. reflexivity. Qed.

Lemma isinstance_of_tuple_app (ty : pytype) (l1 l2 : list hint) :
  isinstance_of ty (HTuple (l1 ++ l2)) =
  match isinstance_of ty (HTuple l1) with
  | Ok false => isinstance_of ty (HTuple l2)
  | r => r
  end.
Proof.
  induction l1 as [|item l1 IH]; [reflexivity|].
  rewrite <- app_comm_cons, !isinstance_of_tuple_cons.
  destruct (isinstance_of ty item) as [[]|e]; [reflexivity | exact IH | reflexivity].
Qed.

Lemma isinstance_of_classes (ty : pytype) (cs : list pytype) :
  isinstance_of ty (HTuple (HClass <$> cs)) = Ok (existsb (issubclass ty) cs).
Proof.
  induction cs as [|c cs IH]; [reflexivity|].
  rewrite fmap_cons, isinstance_of_tuple_cons. cbn [isinstance_of existsb].
  destruct (issubclass ty c); [reflexivity | exact IH].
Qed.

Lemma int_in_classes (cs : list pytype) :
  int_in (HClass <$> cs) = bool_decide (builtins.int ∈ cs).
Proof.
  induction cs as [|c cs IH]; [reflexivity|].
  rewrite fmap_cons. unfold int_in in *. cbn [existsb eq_int]. rewrite IH.
  destruct (decide (c = builtins.int)) as [->|Hne].
  - rewrite bool_decide_eq_true_2 by reflexivity.
    symmetry. apply bool_decide_eq_true_2. left.
  - rewrite (bool_decide_eq_false_2 _ Hne). cbn.
    apply bool_decide_ext. rewrite elem_of_cons.
    split; [intros Hin; by right | intros [Heq|Hin]; [by symmetry in Heq | exact Hin]].
Qed.

(** ** The check of one argument against a declared entry *)

Lemma check_positional_arg_declared (arg_names : list string)
    (type_hints : gmap string hint) (i : nat) (arg : value) (a : string)
    (acc : hint) :
  arg_names !! i = Some a → a ≠ "self" → type_hints !! a = Some acc →
  eq_Any acc = false →
  check_positional_arg arg_names type_hints i arg =
  isinstance arg acc ≫= λ ok, py_assert ok (AssertionError a (type_of arg) acc).
Proof.
  intros Hname Hself Hacc Hany. unfold check_positional_arg, list_getitem, dict_getitem.
  rewrite Hname, bind_Ok. destruct (decide (a = "self")); [done|].
  rewrite Hacc, bind_Ok, Hany. reflexivity.
Qed.

Lemma check_keyword_arg_declared (kwargs : list (string * value))
    (type_hints : gmap string hint) (arg : value) (a : string) (acc : hint) :
  kwargs_getitem kwargs a = Ok arg → type_hints !! a = Some acc →
  eq_Any acc = false →
  check_keyword_arg kwargs type_hints a =
  isinstance arg acc ≫= λ ok, py_assert ok (AssertionError a (type_of arg) acc).
Proof.
  intros Harg Hacc Hany. unfold check_keyword_arg, dict_getitem.
  rewrite Hacc, bind_Ok, Hany, Harg. reflexivity.
Qed.

Lemma isinstance_classes_verdict (a : string) (cs : list pytype) (arg : value) :
  isinstance arg (HTuple (HClass <$> cs))
    ≫= (λ ok, py_assert ok (AssertionError a (type_of arg) (HTuple (HClass <$> cs))))
  = verdict_for_classes a cs arg.
Proof.
  unfold isinstance, verdict_for_classes, instance_of_some.
  rewrite isinstance_of_classes, bind_Ok. reflexivity.
Qed.

(** ** Normalisation, case by case *)

Lemma make_typing_comparable_union (cs : list pytype) :
  make_typing_comparable (typing.Union (HClass <$> cs))
  = HTuple (HClass <$> widened cs).
Proof.
  unfold make_typing_comparable, widened. cbn.
  rewrite int_in_classes.
  destruct (bool_decide (builtins.int ∈ cs)); [|reflexivity].
  rewrite fmap_app. reflexivity.
Qed.

Lemma make_typing_comparable_container (c : pytype) (args : list hint) :
  c ∈ [builtins.list; builtins.dict; builtins.tuple] →
  make_typing_comparable (HGenericAlias (OClass c) args) = HClass c.
Proof.
  intros Hc. unfold make_typing_comparable. cbn [get_origin in_list_dict_tuple].
  repeat (destruct (decide _) as [|?]; [reflexivity|]).
  repeat (apply elem_of_cons in Hc as [Hc|Hc]; [done|]).
  by apply elem_of_nil in Hc.
Qed.

Lemma lookup_make_typings_comparable (types_dict : gmap string hint) (a : string) :
  _make_typings_comparable types_dict !! a
  = make_typing_comparable <$> types_dict !! a.
Proof. unfold _make_typings_comparable. apply lookup_fmap. Qed.

(** ** Parameters declared [int] *)

(** C2, as the code has it: a parameter declared [int] gets the canonical
    entry [(int, np.int64)]; a value supplied for it, by position or by
    keyword, passes its check exactly when it is an instance of [int] or of
    [np.int64], instances of their subclasses included; any other value
    raises the [AssertionError] that names the parameter, the class of the
    value and [(int, np.int64)]. *)
Theorem C2_int_accepts_instances_of_int_and_int64 (types_dict : gmap string hint)
    (arg_names : list string) (kwargs : list (string * value)) (i : nat)
    (a : string) (arg : value) :
  types_dict !! a = Some (HClass builtins.int) →
  arg_names !! i = Some a → a ≠ "self" →
  kwargs_getitem kwargs a = Ok arg →
  _make_typings_comparable types_dict !! a
    = Some (HTuple (HClass <$> [builtins.int; np.int64]))
  ∧ check_positional_arg arg_names (_make_typings_comparable types_dict) i arg
    = verdict_for_classes a [builtins.int; np.int64] arg
  ∧ check_keyword_arg kwargs (_make_typings_comparable types_dict) a
    = verdict_for_classes a [builtins.int; np.int64] arg.
Proof.
  intros Hdecl Hname Hself Hkw.
  assert (Hacc : _make_typings_comparable types_dict !! a
                 = Some (HTuple (HClass <$> [builtins.int; np.int64]))).
  { rewrite lookup_make_typings_comparable, Hdecl. reflexivity. }
  split; [exact Hacc|]. split.
  - rewrite (check_positional_arg_declared _ _ _ _ _ _ Hname Hself Hacc eq_refl).
    apply isinstance_classes_verdict.
  - rewrite (check_keyword_arg_declared _ _ _ _ _ Hkw Hacc eq_refl).
    apply isinstance_classes_verdict.
Qed.

Lemma C2_int_accepts_instances_of_int_and_int64_witness :
  _make_typings_comparable (annotations spec_a_int) !! "a"
    = Some (HTuple (HClass <$> [builtins.int; np.int64]))
  ∧ check_positional_arg ["a"] (_make_typings_comparable (annotations spec_a_int))
      0 (VStr "x")
    = verdict_for_classes "a" [builtins.int; np.int64] (VStr "x")
  ∧ check_keyword_arg [("a", VStr "x")]
      (_make_typings_comparable (annotations spec_a_int)) "a"
    = verdict_for_classes "a" [builtins.int; np.int64] (VStr "x").
Proof.
  apply (C2_int_accepts_instances_of_int_and_int64 (annotations spec_a_int)
           ["a"] [("a", VStr "x")] 0 "a" (VStr "x"));
    [reflexivity | reflexivity | discriminate | reflexivity].
Defined.

(** [True] is neither an [int] nor an [np.int64] by its class, which is
    [bool]; a parameter declared [int] takes it and the body runs. *)
Lemma C2_bool_passes_for_int :
  (type_of (VBool true) ∉ [builtins.int; np.int64])
  ∧ enforce_type_hints counting_body spec_a_int [VBool true] [] 0 = (Ok VNone, 1)
  ∧ enforce_type_hints counting_body spec_a_int [] [("a", VBool true)] 0
    = (Ok VNone, 1).
Proof.
  split; [|split; reflexivity].
  intros Hin.
  repeat (apply elem_of_cons in Hin as [Hin|Hin]; [discriminate Hin|]).
  by apply elem_of_nil in Hin.
Qed.

(** ** Parameters declared as a union *)

(** C4, as the code has it: a parameter declared [Union] of the classes
    [cs] ([Optional[X]] is [Union[X, NoneType]]) gets the canonical entry
    made of [cs], followed by [np.int64] when [int] is among them; a value
    supplied for it, by position or by keyword, passes its check exactly
    when it is an instance of one of these classes, instances of their
    subclasses included; any other value raises the [AssertionError] that
    names the parameter, the class of the value and the canonical entry. *)
Theorem C4_union_accepts_instances_of_its_members (types_dict : gmap string hint)
    (arg_names : list string) (kwargs : list (string * value)) (i : nat)
    (a : string) (arg : value) (cs : list pytype) :
  types_dict !! a = Some (typing.Union (HClass <$> cs)) →
  arg_names !! i = Some a → a ≠ "self" →
  kwargs_getitem kwargs a = Ok arg →
  _make_typings_comparable types_dict !! a = Some (HTuple (HClass <$> widened cs))
  ∧ check_positional_arg arg_names (_make_typings_comparable types_dict) i arg
    = verdict_for_classes a (widened cs) arg
  ∧ check_keyword_arg kwargs (_make_typings_comparable types_dict) a
    = verdict_for_classes a (widened cs) arg.
Proof.
  intros Hdecl Hname Hself Hkw.
  assert (Hacc : _make_typings_comparable types_dict !! a
                 = Some (HTuple (HClass <$> widened cs))).
  { rewrite lookup_make_typings_comparable, Hdecl. cbn [fmap option_fmap option_map].
    rewrite make_typing_comparable_union. reflexivity. }
  split; [exact Hacc|]. split.
  - rewrite (check_positional_arg_declared _ _ _ _ _ _ Hname Hself Hacc eq_refl).
    apply isinstance_classes_verdict.
  - rewrite (check_keyword_arg_declared _ _ _ _ _ Hkw Hacc eq_refl).
    apply isinstance_classes_verdict.
Qed.

Lemma C4_union_accepts_instances_of_its_members_witness :
  _make_typings_comparable (annotations spec_d_union_int_str) !! "d"
    = Some (HTuple (HClass <$> widened [builtins.int; builtins.str]))
  ∧ check_positional_arg ["d"]
      (_make_typings_comparable (annotations spec_d_union_int_str)) 0 (VFloat 314 (-2))
    = verdict_for_classes "d" (widened [builtins.int; builtins.str]) (VFloat 314 (-2))
  ∧ check_keyword_arg [("d", VFloat 314 (-2))]
      (_make_typings_comparable (annotations spec_d_union_int_str)) "d"
    = verdict_for_classes "d" (widened [builtins.int; builtins.str]) (VFloat 314 (-2)).
Proof.
  apply (C4_union_accepts_instances_of_its_members
           (annotations spec_d_union_int_str) ["d"] [("d", VFloat 314 (-2))] 0 "d"
           (VFloat 314 (-2)) [builtins.int; builtins.str]);
    [reflexivity | reflexivity | discriminate | reflexivity].
Defined.

(** [True], of class [bool], is taken by a parameter declared
    [Union[int, str]], whose canonical entry is [(int, str, np.int64)]. *)
Lemma C4_bool_passes_for_union_int_str :
  (type_of (VBool true) ∉ [builtins.int; builtins.str; np.int64])
  ∧ _make_typings_comparable (annotations spec_d_union_int_str) !! "d"
    = Some (HTuple [HClass builtins.int; HClass builtins.str; HClass np.int64])
  ∧ enforce_type_hints counting_body spec_d_union_int_str [VBool true] [] 0
    = (Ok VNone, 1).
Proof.
  split; [|split; reflexivity].
  intros Hin.
  repeat (apply elem_of_cons in Hin as [Hin|Hin]; [discriminate Hin|]).
  by apply elem_of_nil in Hin.
Qed.

(** ** Parameters declared as a container *)

(** C6, as the code has it: a parameter declared [List[..]], [Dict[..]] or
    [Tuple[..]] gets the built-in class [list], [dict] or [tuple] as its
    canonical entry, whatever the element types, and nothing is added to
    it; a value supplied for it, by position or by keyword, passes its
    check exactly when it is an instance of that class, whatever its items
    and instances of subclasses included; any other value raises the
    [AssertionError] that names the parameter, the class of the value and
    the built-in class. *)
Theorem C6_container_accepts_instances_of_builtin (types_dict : gmap string hint)
    (arg_names : list string) (kwargs : list (string * value)) (i : nat)
    (a : string) (arg : value) (c : pytype) (elems : list hint) :
  c ∈ [builtins.list; builtins.dict; builtins.tuple] →
  types_dict !! a = Some (HGenericAlias (OClass c) elems) →
  arg_names !! i = Some a → a ≠ "self" →
  kwargs_getitem kwargs a = Ok arg →
  let verdict :=
    if issubclass (type_of arg) c then Ok ()
    else Raise (AssertionError a (type_of arg) (HClass c)) in
  _make_typings_comparable types_dict !! a = Some (HClass c)
  ∧ check_positional_arg arg_names (_make_typings_comparable types_dict) i arg
    = verdict
  ∧ check_keyword_arg kwargs (_make_typings_comparable types_dict) a = verdict.
Proof.
  intros Hc Hdecl Hname Hself Hkw verdict.
  assert (Hacc : _make_typings_comparable types_dict !! a = Some (HClass c)).
  { rewrite lookup_make_typings_comparable, Hdecl. cbn [fmap option_fmap option_map].
    rewrite (make_typing_comparable_container _ _ Hc). reflexivity. }
  split; [exact Hacc|]. split.
  - rewrite (check_positional_arg_declared _ _ _ _ _ _ Hname Hself Hacc eq_refl).
    reflexivity.
  - rewrite (check_keyword_arg_declared _ _ _ _ _ Hkw Hacc eq_refl).
    reflexivity.
Qed.

Lemma C6_container_accepts_instances_of_builtin_witness :
  _make_typings_comparable (annotations spec_m_dict) !! "m"
    = Some (HClass builtins.dict)
  ∧ check_positional_arg ["m"] (_make_typings_comparable (annotations spec_m_dict))
      0 (VDict [(VInt 1, VStr "one")])
    = Ok ()
  ∧ check_keyword_arg [("m", VDict [(VInt 1, VStr "one")])]
      (_make_typings_comparable (annotations spec_m_dict)) "m"
    = Ok ().
Proof.
  apply (C6_container_accepts_instances_of_builtin (annotations spec_m_dict)
           ["m"] [("m", VDict [(VInt 1, VStr "one")])] 0 "m"
           (VDict [(VInt 1, VStr "one")]) builtins.dict
           [HClass builtins.str; HClass builtins.int]);
    [ apply elem_of_cons; right; apply elem_of_cons; by left
    | reflexivity | reflexivity | discriminate | reflexivity ].
Defined.

(** An [OrderedDict] is of another class than [dict]; a parameter declared
    [Dict[str, int]] takes it and the body runs. *)
Lemma C6_ordered_dict_passes_for_dict :
  type_of (VInstance collections.OrderedDict) ≠ builtins.dict
  ∧ enforce_type_hints counting_body spec_m_dict
      [VInstance collections.OrderedDict] [] 0 = (Ok VNone, 1).
Proof. split; [discriminate | reflexivity]. Qed.

(** ** Where an exception of the checks comes from *)

(** An instance check raises nothing but [TypeError]. *)
Lemma isinstance_of_raises (ty : pytype) :
  ∀ (cls : hint) (e : exn), isinstance_of ty cls = Raise e → e = TypeError.
Proof.
  fix IH 1. intros [c| |o elems|items|r] e; cbn; try congruence.
  induction items as [|item rest IHrest]; [discriminate|].
  destruct (isinstance_of ty item) as [[]|e'] eqn:Hitem.
  - discriminate.
  - exact IHrest.
  - intros [= <-]. exact (IH item _ Hitem).
Qed.

Lemma check_positional_arg_AssertionError (arg_names : list string)
    (type_hints : gmap string hint) (i : nat) (arg : value) (a : string)
    (ty : pytype) (acc : hint) :
  check_positional_arg arg_names type_hints i arg = Raise (AssertionError a ty acc) →
  arg_names !! i = Some a ∧ a ≠ "self" ∧ type_hints !! a = Some acc
  ∧ eq_Any acc = false ∧ isinstance arg acc = Ok false ∧ ty = type_of arg.
Proof.
  unfold check_positional_arg, list_getitem, dict_getitem.
  destruct (arg_names !! i) as [name|]; [rewrite bind_Ok | discriminate].
  destruct (decide (name = "self")) as [|Hself]; [discriminate|].
  destruct (type_hints !! name) as [acc'|] eqn:Hacc; [rewrite bind_Ok | discriminate].
  destruct (eq_Any acc') eqn:Hany; [discriminate|].
  destruct (isinstance arg acc') as [[]|e] eqn:Hinst; cbn.
  - discriminate.
  - intros [= <- <- <-]. done.
  - intros [= ->]. apply isinstance_of_raises in Hinst. discriminate Hinst.
Qed.

Lemma check_keyword_arg_AssertionError (kwargs : list (string * value))
    (type_hints : gmap string hint) (k a : string) (ty : pytype) (acc : hint) :
  check_keyword_arg kwargs type_hints k = Raise (AssertionError a ty acc) →
  k = a ∧ type_hints !! a = Some acc ∧ eq_Any acc = false.
Proof.
  unfold check_keyword_arg, dict_getitem.
  destruct (type_hints !! k) as [acc'|] eqn:Hacc; [rewrite bind_Ok | discriminate].
  destruct (eq_Any acc') eqn:Hany; [discriminate|].
  destruct (kwargs_getitem kwargs k) as [arg|e] eqn:Harg.
  - rewrite bind_Ok. destruct (isinstance arg acc') as [[]|e] eqn:Hinst; cbn.
    + discriminate.
    + intros [= <- _ <-]. done.
    + intros [= ->]. apply isinstance_of_raises in Hinst. discriminate Hinst.
  - cbn. intros [= ->]. clear Hacc. induction kwargs as [|[k' v] kwargs IH]; cbn in Harg.
    + discriminate Harg.
    + destruct (decide (k' = k)); [discriminate Harg | exact (IH Harg)].
Qed.

Lemma first_failure_elem_of (verdicts : list (result unit)) (e : exn) :
  first_failure verdicts = Some e → Raise e ∈ verdicts.
Proof.
  induction verdicts as [|[[]|e'] verdicts IH]; cbn.
  - discriminate.
  - intros Hff. right. exact (IH Hff).
  - intros [= ->]. left.
Qed.

(** The [AssertionError] of a call names a parameter that has a canonical
    entry, and that entry is not [typing.Any]. *)
Lemma validate_call_AssertionError (args : list value)
    (kwargs : list (string * value)) (arg_names : list string)
    (type_hints : gmap string hint) (a : string) (ty : pytype) (acc : hint) :
  validate_call args kwargs arg_names type_hints = Raise (AssertionError a ty acc) →
  type_hints !! a = Some acc ∧ eq_Any acc = false
  ∧ ((∃ i, arg_names !! i = Some a ∧ a ≠ "self") ∨ a ∈ kwargs.*1).
Proof.
  rewrite validate_call_first_failure.
  destruct (first_failure _) as [e|] eqn:Hff; [|discriminate].
  intros [= ->]. apply first_failure_elem_of in Hff.
  apply elem_of_app in Hff as [Hpos|Hkw].
  - unfold positional_verdicts in Hpos.
    apply elem_of_lookup_imap in Hpos as (i & arg & Hverdict & _).
    symmetry in Hverdict.
    apply check_positional_arg_AssertionError in Hverdict
      as (Hname & Hself & Hacc & Hany & _).
    repeat split; [exact Hacc | exact Hany | left; by exists i].
  - unfold keyword_verdicts in Hkw.
    apply list_elem_of_fmap in Hkw as (k & Hverdict & Hk).
    symmetry in Hverdict.
    apply check_keyword_arg_AssertionError in Hverdict as (-> & Hacc & Hany).
    repeat split; [exact Hacc | exact Hany | by right].
Qed.

(** ** Parameters without a declaration *)

(** C1, as the code has it: a parameter that has no entry in the canonical
    mapping is not skipped. Its check, by position under a name other than
    ['self'] or by keyword, raises [KeyError] for its name; a call that
    supplies it raises before the wrapped callable is run, and what it
    raises is never the [AssertionError] of that parameter. *)
Theorem C1_undeclared_parameter_raises_KeyError {St R} (func : callable St R)
    (full_argspec : FullArgSpec) (args : list value)
    (kwargs : list (string * value)) (st : St) (a : string) :
  annotations full_argspec !! a = None →
  (∃ i arg, args !! i = Some arg ∧ spec_args full_argspec !! i = Some a ∧ a ≠ "self")
  ∨ a ∈ kwargs.*1 →
  (∀ i arg, spec_args full_argspec !! i = Some a → a ≠ "self" →
     check_positional_arg (spec_args full_argspec)
       (_make_typings_comparable (annotations full_argspec)) i arg
     = Raise (KeyError a))
  ∧ check_keyword_arg kwargs (_make_typings_comparable (annotations full_argspec)) a
    = Raise (KeyError a)
  ∧ ∃ e, enforce_type_hints func full_argspec args kwargs st = (Raise e, st)
         ∧ ∀ ty acc, e ≠ AssertionError a ty acc.
Proof.
  intros Hdecl Hsupplied.
  assert (Hnone : _make_typings_comparable (annotations full_argspec) !! a = None).
  { rewrite lookup_make_typings_comparable, Hdecl. reflexivity. }
  assert (Hpos : ∀ i arg, spec_args full_argspec !! i = Some a → a ≠ "self" →
            check_positional_arg (spec_args full_argspec)
              (_make_typings_comparable (annotations full_argspec)) i arg
            = Raise (KeyError a)).
  { intros i arg Hname Hself. unfold check_positional_arg, list_getitem, dict_getitem.
    rewrite Hname, bind_Ok. destruct (decide (a = "self")); [done|].
    rewrite Hnone. reflexivity. }
  assert (Hkw : check_keyword_arg kwargs
                  (_make_typings_comparable (annotations full_argspec)) a
                = Raise (KeyError a)).
  { unfold check_keyword_arg, dict_getitem. rewrite Hnone. reflexivity. }
  split; [exact Hpos|]. split; [exact Hkw|].
  assert (Hverdict : ∃ k, call_verdicts full_argspec args kwargs !! k
                          = Some (Raise (KeyError a))).
  { unfold call_verdicts. cbn zeta.
    destruct Hsupplied as [(i & arg & Harg & Hname & Hself)|Hin].
    - exists i. rewrite lookup_app_l.
      + unfold positional_verdicts. rewrite list_lookup_imap, Harg. cbn.
        by rewrite (Hpos i arg Hname Hself).
      + unfold positional_verdicts. rewrite length_imap.
        by apply lookup_lt_Some in Harg.
    - apply list_elem_of_lookup in Hin as [k Hk].
      exists (length (positional_verdicts args (spec_args full_argspec)
                (_make_typings_comparable (annotations full_argspec))) + k).
      rewrite lookup_app_r by lia.
      replace (_ + k - _) with k by lia.
      unfold keyword_verdicts. rewrite list_lookup_fmap, Hk. cbn.
      by rewrite Hkw. }
  destruct Hverdict as [k Hk].
  destruct (first_failure_Some _ _ _ Hk) as (j & e & _ & _ & _ & Hff).
  assert (Hcall : validate_call args kwargs (spec_args full_argspec)
                    (_make_typings_comparable (annotations full_argspec))
                  = Raise e).
  { rewrite validate_call_first_failure. unfold call_verdicts in Hff.
    cbn zeta in Hff. by rewrite Hff. }
  exists e. split.
  - unfold enforce_type_hints, func_w_arg_dtypes_validated. by rewrite Hcall.
  - intros ty acc ->. apply validate_call_AssertionError in Hcall as (Hacc & _).
    congruence.
Qed.

Lemma C1_undeclared_parameter_raises_KeyError_witness :
  (∀ i arg, spec_args spec_e_undeclared !! i = Some "e" → "e" ≠ "self" →
     check_positional_arg (spec_args spec_e_undeclared)
       (_make_typings_comparable (annotations spec_e_undeclared)) i arg
     = Raise (KeyError "e"))
  ∧ check_keyword_arg [("e", VInt 1)]
      (_make_typings_comparable (annotations spec_e_undeclared)) "e"
    = Raise (KeyError "e")
  ∧ ∃ e, enforce_type_hints counting_body spec_e_undeclared [] [("e", VInt 1)] 0
         = (Raise e, 0)
         ∧ ∀ ty acc, e ≠ AssertionError "e" ty acc.
Proof.
  apply (C1_undeclared_parameter_raises_KeyError counting_body spec_e_undeclared
           [] [("e", VInt 1)] 0 "e").
  - reflexivity.
  - right. cbn. left.
Defined.

(** [def f(e)] called as [f(1)] and as [f(e=1)]: the parameter has no
    declaration, the call raises [KeyError] and the body does not run. *)
Lemma C1_undeclared_parameter_is_not_skipped :
  annotations spec_e_undeclared !! "e" = None
  ∧ enforce_type_hints counting_body spec_e_undeclared [VInt 1] [] 0
    = (Raise (KeyError "e"), 0)
  ∧ enforce_type_hints counting_body spec_e_undeclared [] [("e", VInt 1)] 0
    = (Raise (KeyError "e"), 0).
Proof. repeat split. Qed.

(** ** Parameters declared [typing.Any] *)

(** C8: a parameter declared [typing.Any] keeps [typing.Any] as its
    canonical entry; the check of whatever value is supplied for it, by
    position or by keyword, passes, and no call raises the
    [AssertionError] of that parameter. *)
Theorem C8_any_is_never_checked (types_dict : gmap string hint)
    (arg_names : list string) (i : nat) (a : string) :
  types_dict !! a = Some typing.Any →
  arg_names !! i = Some a →
  _make_typings_comparable types_dict !! a = Some typing.Any
  ∧ (∀ arg, check_positional_arg arg_names (_make_typings_comparable types_dict) i arg
            = Ok ())
  ∧ (∀ kwargs, check_keyword_arg kwargs (_make_typings_comparable types_dict) a
               = Ok ())
  ∧ (∀ args kwargs ty acc,
       validate_call args kwargs arg_names (_make_typings_comparable types_dict)
       ≠ Raise (AssertionError a ty acc)).
Proof.
  intros Hdecl Hname.
  assert (Hacc : _make_typings_comparable types_dict !! a = Some typing.Any).
  { rewrite lookup_make_typings_comparable, Hdecl. reflexivity. }
  split; [exact Hacc|]. repeat split.
  - intros arg. unfold check_positional_arg, list_getitem, dict_getitem.
    rewrite Hname, bind_Ok. destruct (decide (a = "self")); [reflexivity|].
    rewrite Hacc. reflexivity.
  - intros kwargs. unfold check_keyword_arg, dict_getitem. rewrite Hacc. reflexivity.
  - intros args kwargs ty acc Hcall.
    apply validate_call_AssertionError in Hcall as (Hacc' & Hany & _).
    rewrite Hacc in Hacc'. injection Hacc' as <-. discriminate Hany.
Qed.

Lemma C8_any_is_never_checked_witness :
  _make_typings_comparable (annotations spec_c_any) !! "c" = Some typing.Any
  ∧ (∀ arg, check_positional_arg ["c"]
              (_make_typings_comparable (annotations spec_c_any)) 0 arg
            = Ok ())
  ∧ (∀ kwargs, check_keyword_arg kwargs
                 (_make_typings_comparable (annotations spec_c_any)) "c"
               = Ok ())
  ∧ (∀ args kwargs ty acc,
       validate_call args kwargs ["c"]
         (_make_typings_comparable (annotations spec_c_any))
       ≠ Raise (AssertionError "c" ty acc)).
Proof.
  apply (C8_any_is_never_checked (annotations spec_c_any) ["c"] 0 "c");
    reflexivity.
Defined.

(** ** Normalising twice *)

Lemma int_in_elem_of (items : list hint) :
  int_in items = true → HClass builtins.int ∈ items.
Proof.
  unfold int_in. intros Hin. apply existsb_exists in Hin as (x & Hx & Heq).
  apply list_elem_of_In in Hx. destruct x as [c| | | |]; try discriminate Heq.
  cbn in Heq. apply bool_decide_eq_true_1 in Heq as ->. exact Hx.
Qed.

Lemma make_typing_comparable_tuple (items : list hint) :
  make_typing_comparable (HTuple items)
  = if int_in items then HTuple (items ++ [HClass np.int64]) else HTuple items.
Proof. reflexivity. Qed.

Lemma isinstance_of_tuple_false (ty : pytype) (items : list hint) (x : hint) :
  isinstance_of ty (HTuple items) = Ok false → x ∈ items →
  isinstance_of ty x = Ok false.
Proof.
  induction items as [|item rest IH]; intros Hall Hx.
  - by apply elem_of_nil in Hx.
  - rewrite isinstance_of_tuple_cons in Hall.
    destruct (isinstance_of ty item) as [[]|e] eqn:Hitem; try discriminate Hall.
    apply elem_of_cons in Hx as [->|Hx]; [exact Hitem | exact (IH Hall Hx)].
Qed.

(** Appending a class that is in the tuple already changes no instance
    check. *)
Lemma isinstance_of_tuple_snoc_dup (ty : pytype) (items : list hint) (x : hint) :
  x ∈ items →
  isinstance_of ty (HTuple (items ++ [x])) = isinstance_of ty (HTuple items).
Proof.
  intros Hx. rewrite isinstance_of_tuple_app.
  destruct (isinstance_of ty (HTuple items)) as [[]|e] eqn:Hitems; try reflexivity.
  rewrite isinstance_of_tuple_cons, (isinstance_of_tuple_false _ _ _ Hitems Hx).
  reflexivity.
Qed.

(** A generic alias that is no container is replaced by its type
    arguments. *)
Lemma make_typing_comparable_alias (orig : origin) (elems : list hint) :
  in_list_dict_tuple (get_origin (HGenericAlias orig elems)) = None →
  make_typing_comparable (HGenericAlias orig elems)
  = if int_in elems then HTuple (elems ++ [HClass np.int64]) else HTuple elems.
Proof.
  intros Horig. unfold make_typing_comparable. rewrite Horig. cbn -[int_in].
  destruct (int_in elems); reflexivity.
Qed.

Lemma in_list_dict_tuple_not_int (orig_type : option origin) (c : pytype) :
  in_list_dict_tuple orig_type = Some c → c ≠ builtins.int.
Proof.
  destruct orig_type as [[c'| | |name]|]; try discriminate. cbn.
  repeat (destruct (decide _) as [->|?]; [intros [= <-]; discriminate|]).
  discriminate.
Qed.

Lemma make_typing_comparable_class (c : pytype) :
  make_typing_comparable (HClass c)
  = if bool_decide (c = builtins.int) then HTuple [HClass c; HClass np.int64]
    else HClass c.
Proof. unfold make_typing_comparable. cbn. by case_bool_decide. Qed.

(** A canonical tuple with [int] in it has [np.int64] in it. *)
Lemma make_typing_comparable_widened (arg_type : hint) (items : list hint) :
  make_typing_comparable arg_type = HTuple items → int_in items = true →
  HClass np.int64 ∈ items.
Proof.
  destruct arg_type as [c| |o elems|items0|r].
  - rewrite make_typing_comparable_class. case_bool_decide; [|discriminate].
    intros [= <-] _. right. left.
  - discriminate.
  - destruct (in_list_dict_tuple (get_origin (HGenericAlias o elems)))
      as [c|] eqn:Horig.
    + unfold make_typing_comparable. rewrite Horig. discriminate.
    + rewrite (make_typing_comparable_alias _ _ Horig).
      destruct (int_in elems) eqn:Hint.
      * intros [= <-] _. apply elem_of_app. right. left.
      * intros [= <-] Hint'. congruence.
  - rewrite make_typing_comparable_tuple. destruct (int_in items0) eqn:Hint.
    + intros [= <-] _. apply elem_of_app. right. left.
    + intros [= <-] Hint'. congruence.
  - discriminate.
Qed.

(** Anything but a tuple that the normaliser returns is left alone by it. *)
Lemma make_typing_comparable_fixed (arg_type : hint) :
  is_tuple (make_typing_comparable arg_type) = false →
  make_typing_comparable (make_typing_comparable arg_type)
  = make_typing_comparable arg_type.
Proof.
  destruct arg_type as [c| |o elems|items0|r]; try reflexivity.
  - rewrite make_typing_comparable_class. case_bool_decide as Hc; [discriminate|].
    intros _. rewrite make_typing_comparable_class.
    by rewrite (bool_decide_eq_false_2 _ Hc).
  - destruct (in_list_dict_tuple (get_origin (HGenericAlias o elems)))
      as [c|] eqn:Horig.
    + assert (Hcanon : make_typing_comparable (HGenericAlias o elems) = HClass c)
        by (unfold make_typing_comparable; by rewrite Horig).
      rewrite Hcanon. intros _. rewrite make_typing_comparable_class.
      by rewrite (bool_decide_eq_false_2 _ (in_list_dict_tuple_not_int _ _ Horig)).
    + rewrite (make_typing_comparable_alias _ _ Horig).
      destruct (int_in elems); discriminate.
  - rewrite make_typing_comparable_tuple. destruct (int_in items0); discriminate.
Qed.

(** The entry of a canonical entry: [np.int64] is appended to a tuple with
    [int] in it, anything else is kept. *)
Lemma renormalised_canonical_entry (arg_type : hint) :
  make_typing_comparable (make_typing_comparable arg_type)
  = if contains_int (make_typing_comparable arg_type)
    then tuple_iadd (make_typing_comparable arg_type) [HClass np.int64]
    else make_typing_comparable arg_type.
Proof.
  destruct (make_typing_comparable arg_type) as [c| |o elems|items|r] eqn:Hcanon;
    try (cbn [contains_int]; rewrite <- Hcanon;
         apply make_typing_comparable_fixed; by rewrite Hcanon).
  apply make_typing_comparable_tuple.
Qed.

(** C3, as the code has it: normalising a canonical mapping again is not
    idempotent. The entry of a parameter that is a tuple with [int] in it
    gets [np.int64] appended once more, every other entry is kept as it
    is. Such a tuple holds [np.int64] already, so what is appended is a
    duplicate: the classes of the entry are the same and every instance
    check against it gives the same answer. *)
Theorem C3_renormalising_keeps_members_adds_duplicate
    (types_dict : gmap string hint) (a : string) (canon : hint) :
  _make_typings_comparable types_dict !! a = Some canon →
  _make_typings_comparable (_make_typings_comparable types_dict) !! a
  = Some (if contains_int canon then tuple_iadd canon [HClass np.int64] else canon)
  ∧ (contains_int canon = true →
     ∃ items, canon = HTuple items
              ∧ HClass builtins.int ∈ items ∧ HClass np.int64 ∈ items
              ∧ tuple_iadd canon [HClass np.int64]
                = HTuple (items ++ [HClass np.int64]))
  ∧ ∀ ty, isinstance_of ty
            (if contains_int canon then tuple_iadd canon [HClass np.int64]
             else canon)
          = isinstance_of ty canon.
Proof.
  intros Hcanon.
  rewrite lookup_make_typings_comparable, Hcanon. cbn [fmap option_fmap option_map].
  rewrite lookup_make_typings_comparable in Hcanon.
  destruct (types_dict !! a) as [arg_type|]; [|discriminate Hcanon].
  injection Hcanon as <-.
  rewrite renormalised_canonical_entry.
  split; [reflexivity|].
  assert (Hdup : contains_int (make_typing_comparable arg_type) = true →
            ∃ items, make_typing_comparable arg_type = HTuple items
                     ∧ HClass builtins.int ∈ items ∧ HClass np.int64 ∈ items
                     ∧ tuple_iadd (make_typing_comparable arg_type) [HClass np.int64]
                       = HTuple (items ++ [HClass np.int64])).
  { destruct (make_typing_comparable arg_type) as [c| |o elems|items|r] eqn:Heq;
      try discriminate.
    cbn [contains_int]. intros Hint. exists items.
    repeat split; [by apply int_in_elem_of|].
    exact (make_typing_comparable_widened _ _ Heq Hint). }
  split; [exact Hdup|].
  intros ty. destruct (contains_int (make_typing_comparable arg_type)) eqn:Hint;
    [|reflexivity].
  destruct (Hdup eq_refl) as (items & -> & _ & Hnp & ->).
  by apply isinstance_of_tuple_snoc_dup.
Qed.

Lemma C3_renormalising_keeps_members_adds_duplicate_witness :
  _make_typings_comparable
    (_make_typings_comparable (annotations spec_d_union_int_str)) !! "d"
  = Some (HTuple [HClass builtins.int; HClass builtins.str; HClass np.int64;
                  HClass np.int64])
  ∧ (contains_int
       (HTuple [HClass builtins.int; HClass builtins.str; HClass np.int64]) = true →
     ∃ items,
       HTuple [HClass builtins.int; HClass builtins.str; HClass np.int64]
       = HTuple items
       ∧ HClass builtins.int ∈ items ∧ HClass np.int64 ∈ items
       ∧ tuple_iadd
           (HTuple [HClass builtins.int; HClass builtins.str; HClass np.int64])
           [HClass np.int64]
         = HTuple (items ++ [HClass np.int64]))
  ∧ ∀ ty, isinstance_of ty
            (HTuple [HClass builtins.int; HClass builtins.str; HClass np.int64;
                     HClass np.int64])
          = isinstance_of ty
              (HTuple [HClass builtins.int; HClass builtins.str; HClass np.int64]).
Proof.
  apply (C3_renormalising_keeps_members_adds_duplicate
           (annotations spec_d_union_int_str) "d"
           (HTuple [HClass builtins.int; HClass builtins.str; HClass np.int64])).
  reflexivity.
Defined.

(** [int] normalises to [(int, np.int64)], and that to
    [(int, np.int64, np.int64)]: another entry, with a duplicate. *)
Lemma C3_renormalising_int_duplicates_int64 :
  _make_typings_comparable (annotations spec_a_int) !! "a"
    = Some (HTuple [HClass builtins.int; HClass np.int64])
  ∧ _make_typings_comparable (_make_typings_comparable (annotations spec_a_int)) !! "a"
    = Some (HTuple [HClass builtins.int; HClass np.int64; HClass np.int64])
  ∧ _make_typings_comparable (_make_typings_comparable (annotations spec_a_int))
    ≠ _make_typings_comparable (annotations spec_a_int)
  ∧ ¬ NoDup [HClass builtins.int; HClass np.int64; HClass np.int64].
Proof.
  split; [reflexivity|]. split; [reflexivity|]. split.
  - intros Heq. apply (f_equal (λ m : gmap string hint, m !! "a")) in Heq.
    discriminate Heq.
  - intros Hnd. apply NoDup_cons in Hnd as [_ Hnd].
    apply NoDup_cons in Hnd as [Hnotin _]. apply Hnotin. left.
Qed.

(** ** Declarations of no supported shape *)

(** C5, as the code has it: the normaliser raises nothing and gives every
    declared parameter a canonical entry. An object that is no class, no
    [typing] form and no tuple is kept as it is, and a generic alias other
    than [List], [Dict] and [Tuple] is replaced by its type arguments the
    way a [Union] is. The unsupported object shows at call time only: the
    check of any value supplied for the parameter, by position or by
    keyword, raises [TypeError]. *)
Theorem C5_unsupported_shape_fails_at_call_time (types_dict : gmap string hint)
    (arg_names : list string) (kwargs : list (string * value)) (i : nat)
    (a : string) (arg : value) (r : string) :
  types_dict !! a = Some (HObject r) →
  arg_names !! i = Some a → a ≠ "self" →
  kwargs_getitem kwargs a = Ok arg →
  dom (_make_typings_comparable types_dict) = dom types_dict
  ∧ _make_typings_comparable types_dict !! a = Some (HObject r)
  ∧ check_positional_arg arg_names (_make_typings_comparable types_dict) i arg
    = Raise TypeError
  ∧ check_keyword_arg kwargs (_make_typings_comparable types_dict) a
    = Raise TypeError
  ∧ ∀ orig elems,
      in_list_dict_tuple (get_origin (HGenericAlias orig elems)) = None →
      make_typing_comparable (HGenericAlias orig elems)
      = make_typing_comparable (typing.Union elems).
Proof.
  intros Hdecl Hname Hself Hkw.
  assert (Hacc : _make_typings_comparable types_dict !! a = Some (HObject r)).
  { rewrite lookup_make_typings_comparable, Hdecl. reflexivity. }
  split; [apply dom_fmap_L|]. split; [exact Hacc|]. split; [|split].
  - by rewrite (check_positional_arg_declared _ _ _ _ _ _ Hname Hself Hacc eq_refl).
  - by rewrite (check_keyword_arg_declared _ _ _ _ _ Hkw Hacc eq_refl).
  - intros orig elems Horig. unfold make_typing_comparable. rewrite Horig. reflexivity.
Qed.

Lemma C5_unsupported_shape_fails_at_call_time_witness :
  dom (_make_typings_comparable (annotations spec_a_forward_ref))
  = dom (annotations spec_a_forward_ref)
  ∧ _make_typings_comparable (annotations spec_a_forward_ref) !! "a"
    = Some (HObject "'Foo'")
  ∧ check_positional_arg ["a"]
      (_make_typings_comparable (annotations spec_a_forward_ref)) 0 (VInt 1)
    = Raise TypeError
  ∧ check_keyword_arg [("a", VInt 1)]
      (_make_typings_comparable (annotations spec_a_forward_ref)) "a"
    = Raise TypeError
  ∧ ∀ orig elems,
      in_list_dict_tuple (get_origin (HGenericAlias orig elems)) = None →
      make_typing_comparable (HGenericAlias orig elems)
      = make_typing_comparable (typing.Union elems).
Proof.
  apply (C5_unsupported_shape_fails_at_call_time (annotations spec_a_forward_ref)
           ["a"] [("a", VInt 1)] 0 "a" (VInt 1) "'Foo'");
    [reflexivity | reflexivity | discriminate | reflexivity].
Defined.

(** [def f(a: 'Foo')]: the normaliser returns a mapping that still holds
    the string, and the failure comes with the first call, as a
    [TypeError]. *)
Lemma C5_forward_reference_fails_mid_call :
  _make_typings_comparable (annotations spec_a_forward_ref)
  = annotations spec_a_forward_ref
  ∧ enforce_type_hints counting_body spec_a_forward_ref [VInt 1] [] 0
    = (Raise TypeError, 0).
Proof.
  split; [|reflexivity].
  apply map_eq. intros k. rewrite lookup_make_typings_comparable.
  unfold spec_a_forward_ref, annotations.
  destruct (decide (k = "a")) as [->|Hne].
  - by rewrite lookup_singleton_eq.
  - by rewrite lookup_singleton_ne.
Qed.

(** ** Parameters named ['self'] *)

Lemma check_positional_arg_self (arg_names : list string)
    (type_hints : gmap string hint) (i : nat) (arg : value) :
  arg_names !! i = Some "self" →
  check_positional_arg arg_names type_hints i arg = Ok ().
Proof.
  intros Hname. unfold check_positional_arg, list_getitem.
  rewrite Hname, bind_Ok. reflexivity.
Qed.

(** The positional check reads no entry but those of names other than
    ['self']. *)
Lemma check_positional_arg_off_self (arg_names : list string)
    (type_hints type_hints' : gmap string hint) (i : nat) (arg : value) :
  (∀ k, k ≠ "self" → type_hints !! k = type_hints' !! k) →
  check_positional_arg arg_names type_hints i arg
  = check_positional_arg arg_names type_hints' i arg.
Proof.
  intros Hagree. unfold check_positional_arg, list_getitem, dict_getitem.
  destruct (arg_names !! i) as [name|]; [rewrite !bind_Ok | reflexivity].
  destruct (decide (name = "self")) as [|Hself]; [reflexivity|].
  by rewrite (Hagree name Hself).
Qed.

Lemma check_keyword_arg_off_self (kwargs : list (string * value))
    (type_hints type_hints' : gmap string hint) (k : string) :
  k ≠ "self" → (∀ k, k ≠ "self" → type_hints !! k = type_hints' !! k) →
  check_keyword_arg kwargs type_hints k = check_keyword_arg kwargs type_hints' k.
Proof.
  intros Hself Hagree. unfold check_keyword_arg, dict_getitem.
  by rewrite (Hagree k Hself).
Qed.

Lemma for_enumerate_ext {A} (body body' : nat → A → result unit) (xs : list A) :
  ∀ i, (∀ j x, body j x = body' j x) →
       for_enumerate body i xs = for_enumerate body' i xs.
Proof.
  induction xs as [|x xs IH]; intros i Hext; [reflexivity|].
  cbn [for_enumerate]. rewrite Hext.
  destruct (body' i x) as [[]|e]; [rewrite !bind_Ok; by apply IH | reflexivity].
Qed.

Lemma for_each_ext {A} (body body' : A → result unit) (xs : list A) :
  Forall (λ x, body x = body' x) xs → for_each body xs = for_each body' xs.
Proof.
  induction 1 as [|x xs Hx _ IH]; [reflexivity|].
  cbn [for_each]. rewrite Hx.
  destruct (body' x) as [[]|e]; [rewrite !bind_Ok; exact IH | reflexivity].
Qed.

(** A loop whose body passes at some index whatever the item is does not
    see that item. *)
Lemma for_enumerate_insert {A} (body : nat → A → result unit) (xs : list A) :
  ∀ start i x', (∀ x, body (start + i) x = Ok ()) →
                for_enumerate body start (<[i:=x']> xs) = for_enumerate body start xs.
Proof.
  induction xs as [|x xs IH]; intros start i x' Hskip; [reflexivity|].
  destruct i as [|i]; cbn [for_enumerate insert list_insert].
  - rewrite Nat.add_0_r in Hskip. by rewrite !Hskip.
  - destruct (body start x) as [[]|e]; [rewrite !bind_Ok | reflexivity].
    apply IH. intros y. rewrite <- (Hskip y). f_equal. lia.
Qed.

Lemma make_typings_comparable_off_self (types_dict types_dict' : gmap string hint) :
  (∀ k, k ≠ "self" → types_dict !! k = types_dict' !! k) →
  ∀ k, k ≠ "self" →
       _make_typings_comparable types_dict !! k
       = _make_typings_comparable types_dict' !! k.
Proof.
  intros Hagree k Hself. rewrite !lookup_make_typings_comparable.
  by rewrite (Hagree k Hself).
Qed.

(** C9: in a call of a method whose first parameter is named ['self'], the
    receiver, bound by position, is not checked: its check passes, the two
    checks of the call give the same outcome whatever the receiver is and
    whatever is declared for ['self'], and no such call raises the
    [AssertionError] of ['self']. *)
Theorem C9_receiver_is_never_checked (types_dict types_dict' : gmap string hint)
    (arg_names : list string) (recv recv' : value) (rest : list value)
    (kwargs : list (string * value)) :
  (∀ k, k ≠ "self" → types_dict !! k = types_dict' !! k) →
  "self" ∉ kwargs.*1 →
  check_positional_arg ("self" :: arg_names) (_make_typings_comparable types_dict)
    0 recv = Ok ()
  ∧ validate_call (recv :: rest) kwargs ("self" :: arg_names)
      (_make_typings_comparable types_dict)
    = validate_call (recv' :: rest) kwargs ("self" :: arg_names)
        (_make_typings_comparable types_dict')
  ∧ ∀ ty acc,
      validate_call (recv :: rest) kwargs ("self" :: arg_names)
        (_make_typings_comparable types_dict)
      ≠ Raise (AssertionError "self" ty acc).
Proof.
  intros Hagree Hkw.
  pose proof (make_typings_comparable_off_self _ _ Hagree) as Hcanon.
  split; [by apply check_positional_arg_self|]. split.
  - unfold validate_call, _check_positional_args, _check_keyword_args.
    cbn [for_enumerate].
    rewrite !check_positional_arg_self, !bind_Ok by reflexivity.
    rewrite (for_enumerate_ext _
               (check_positional_arg ("self" :: arg_names)
                  (_make_typings_comparable types_dict')))
      by (intros j x; by apply check_positional_arg_off_self).
    rewrite (for_each_ext (check_keyword_arg kwargs _)
               (check_keyword_arg kwargs (_make_typings_comparable types_dict')));
      [reflexivity|].
    apply Forall_forall. intros k Hk.
    apply check_keyword_arg_off_self; [|exact Hcanon].
    intros ->. exact (Hkw Hk).
  - intros ty acc Hcall.
    apply validate_call_AssertionError in Hcall as (_ & _ & [(i & _ & Hself)|Hin]).
    + by apply Hself.
    + exact (Hkw Hin).
Qed.

Lemma C9_receiver_is_never_checked_witness :
  check_positional_arg ("self" :: ["x"])
    (_make_typings_comparable (annotations spec_method)) 0 (VInt 7) = Ok ()
  ∧ validate_call (VInt 7 :: [VStr "s"]) [] ("self" :: ["x"])
      (_make_typings_comparable (annotations spec_method))
    = validate_call (VNone :: [VStr "s"]) [] ("self" :: ["x"])
        (_make_typings_comparable (<["self" := HClass builtins.str]> (annotations spec_method)))
  ∧ ∀ ty acc,
      validate_call (VInt 7 :: [VStr "s"]) [] ("self" :: ["x"])
        (_make_typings_comparable (annotations spec_method))
      ≠ Raise (AssertionError "self" ty acc).
Proof.
  apply (C9_receiver_is_never_checked (annotations spec_method)
           (<["self" := HClass builtins.str]> (annotations spec_method))
           ["x"] (VInt 7) VNone [VStr "s"] []).
  - intros k Hk. by rewrite lookup_insert_ne.
  - cbn. apply not_elem_of_nil.
Defined.

(** C10: the positional check skips an argument whenever the name at its
    index is ['self'], at whatever index that is: the check of that
    argument passes for every value, and the outcome of the positional
    check does not depend on the value supplied there nor on what is
    declared for ['self']. *)
Theorem C10_name_self_is_skipped_at_any_position
    (types_dict types_dict' : gmap string hint) (arg_names : list string)
    (args : list value) (i : nat) (arg' : value) :
  arg_names !! i = Some "self" →
  (∀ k, k ≠ "self" → types_dict !! k = types_dict' !! k) →
  (∀ arg, check_positional_arg arg_names (_make_typings_comparable types_dict) i arg
          = Ok ())
  ∧ _check_positional_args (<[i:=arg']> args) arg_names
      (_make_typings_comparable types_dict')
    = _check_positional_args args arg_names (_make_typings_comparable types_dict).
Proof.
  intros Hname Hagree.
  pose proof (make_typings_comparable_off_self _ _ Hagree) as Hcanon.
  split; [intros arg; by apply check_positional_arg_self|].
  unfold _check_positional_args.
  rewrite for_enumerate_insert
    by (intros x; by apply check_positional_arg_self).
  apply for_enumerate_ext. intros j x. symmetry.
  by apply check_positional_arg_off_self.
Qed.

Lemma C10_name_self_is_skipped_at_any_position_witness :
  (∀ arg, check_positional_arg (spec_args spec_plain_with_self)
            (_make_typings_comparable (annotations spec_plain_with_self)) 1 arg
          = Ok ())
  ∧ _check_positional_args (<[1:=VNone]> [VInt 1; VInt 5])
      (spec_args spec_plain_with_self)
      (_make_typings_comparable (delete "self" (annotations spec_plain_with_self)))
    = _check_positional_args [VInt 1; VInt 5] (spec_args spec_plain_with_self)
        (_make_typings_comparable (annotations spec_plain_with_self)).
Proof.
  apply (C10_name_self_is_skipped_at_any_position
           (annotations spec_plain_with_self)
           (delete "self" (annotations spec_plain_with_self))
           (spec_args spec_plain_with_self) [VInt 1; VInt 5] 1 VNone).
  - reflexivity.
  - intros k Hk. by rewrite lookup_delete_ne.
Defined.

(** [def f(a: int, self: str)] called as [f(1, 5)]: the second argument is
    no [str], and the body runs. *)
Example plain_function_self_not_checked :
  enforce_type_hints counting_body spec_plain_with_self [VInt 1; VInt 5] [] 0
  = (Ok VNone, 1).
Proof. reflexivity. Qed.

(** The same value under another name is refused. *)
Example plain_function_other_name_checked :
  enforce_type_hints counting_body
    {| spec_args := ["a"; "this"];
       annotations := {[ "a" := HClass builtins.int; "this" := HClass builtins.str ]} |}
    [VInt 1; VInt 5] [] 0
  = (Raise (AssertionError "this" builtins.int (HClass builtins.str)), 0).
Proof. reflexivity. Qed.

(** ** The scenarios of the specification *)

(** [a: int] called with ["x"]. *)
Example scenario_int_given_str :
  enforce_type_hints counting_body spec_a_int [VStr "x"] [] 0
  = (Raise (AssertionError "a" builtins.str
              (HTuple [HClass builtins.int; HClass np.int64])), 0).
Proof. reflexivity. Qed.

(** [a: int] called with an [np.int64]. *)
Example scenario_int_given_int64 :
  enforce_type_hints counting_body spec_a_int [VNpInt64 7] [] 0 = (Ok VNone, 1).
Proof. reflexivity. Qed.

(** [b: Optional[str]] called with [None], then with [5]. *)
Example scenario_optional_str :
  enforce_type_hints counting_body spec_b_optional_str [VNone] [] 0 = (Ok VNone, 1)
  ∧ enforce_type_hints counting_body spec_b_optional_str [] [("b", VInt 5)] 0
    = (Raise (AssertionError "b" builtins.int
                (HTuple [HClass builtins.str; HClass builtins.NoneType])), 0).
Proof. split; reflexivity. Qed.

(** [c: Any] called with a list. *)
Example scenario_any :
  enforce_type_hints counting_body spec_c_any [VList [VInt 1; VStr "two"]] [] 0
  = (Ok VNone, 1).
Proof. reflexivity. Qed.

(** [d: Union[int, str]] called with [3.14]. *)
Example scenario_union_given_float :
  enforce_type_hints counting_body spec_d_union_int_str [VFloat 314 (-2)] [] 0
  = (Raise (AssertionError "d" builtins.float
              (HTuple [HClass builtins.int; HClass builtins.str; HClass np.int64])), 0).
Proof. reflexivity. Qed.

(** * Further properties of the decorator *)

(** ** Calls that pass, and surplus arguments *)

Lemma for_enumerate_app {A} (body : nat → A → result unit) (xs ys : list A) :
  ∀ i, for_enumerate body i (xs ++ ys)
       = for_enumerate body i xs ≫= λ _, for_enumerate body (i + length xs) ys.
Proof.
  induction xs as [|x xs IH]; intros i.
  - cbn. by rewrite Nat.add_0_r.
  - cbn [app for_enumerate length]. destruct (body i x) as [[]|e]; [|reflexivity].
    rewrite !bind_Ok, IH.
    by replace (i + S (length xs)) with (S i + length xs) by lia.
Qed.

Lemma check_positional_arg_out_of_range (arg_names : list string)
    (type_hints : gmap string hint) (i : nat) (arg : value) :
  (List.length arg_names ≤ i)%nat →
  check_positional_arg arg_names type_hints i arg = Raise IndexError.
Proof.
  intros Hlen. unfold check_positional_arg, list_getitem.
  by rewrite lookup_ge_None_2.
Qed.

(** X1: when the check of every supplied argument passes, the decorated
    call is the call of the wrapped callable on the same positional and
    keyword arguments: same result, same effect on the state. *)
Theorem X1_passing_call_is_the_wrapped_call {St R} (func : callable St R)
    (full_argspec : FullArgSpec) (args : list value)
    (kwargs : list (string * value)) (st : St) :
  Forall (λ v, v = Ok ()) (call_verdicts full_argspec args kwargs) →
  enforce_type_hints func full_argspec args kwargs st = func args kwargs st.
Proof. apply enforce_type_hints_runs_body. Qed.

Lemma X1_passing_call_is_the_wrapped_call_witness :
  enforce_type_hints counting_body spec_int_str [VInt 1] [("b", VStr "s")] 0
  = counting_body [VInt 1] [("b", VStr "s")] 0.
Proof.
  apply (X1_passing_call_is_the_wrapped_call counting_body spec_int_str
           [VInt 1] [("b", VStr "s")] 0).
  repeat constructor.
Defined.

(** X2: a call with more positional arguments than the function has named
    parameters raises [IndexError] as soon as the arguments that have a
    name have passed; the wrapped callable is not run. *)
Theorem X2_surplus_positional_raises_IndexError {St R} (func : callable St R)
    (full_argspec : FullArgSpec) (args surplus : list value) (arg : value)
    (kwargs : list (string * value)) (st : St) :
  List.length args = List.length (spec_args full_argspec) →
  _check_positional_args args (spec_args full_argspec)
    (_make_typings_comparable (annotations full_argspec)) = Ok () →
  enforce_type_hints func full_argspec (args ++ arg :: surplus)%list kwargs st
  = (Raise IndexError, st).
Proof.
  intros Hlen Hpass.
  unfold enforce_type_hints, func_w_arg_dtypes_validated, validate_call.
  unfold _check_positional_args in *. rewrite for_enumerate_app, Hpass, bind_Ok.
  cbn [for_enumerate].
  rewrite check_positional_arg_out_of_range by (cbn; lia). reflexivity.
Qed.

Lemma X2_surplus_positional_raises_IndexError_witness :
  enforce_type_hints counting_body spec_a_int ([VInt 1] ++ VInt 2 :: [])%list [] 0
  = (Raise IndexError, 0).
Proof.
  apply (X2_surplus_positional_raises_IndexError counting_body spec_a_int
           [VInt 1] [] (VInt 2) [] 0); reflexivity.
Defined.

(** ** Where each exception comes from *)

Lemma kwargs_getitem_elem_of (kwargs : list (string * value)) (k : string) :
  k ∈ kwargs.*1 → ∃ v, kwargs_getitem kwargs k = Ok v.
Proof.
  induction kwargs as [|[k' v] kwargs IH]; cbn; intros Hin.
  - by apply elem_of_nil in Hin.
  - destruct (decide (k' = k)) as [|Hne]; [by exists v|].
    apply elem_of_cons in Hin as [Heq|Hin]; [by symmetry in Heq | exact (IH Hin)].
Qed.

Lemma kwargs_getitem_Ok_elem_of (kwargs : list (string * value)) (k : string)
    (v : value) :
  kwargs_getitem kwargs k = Ok v → (k, v) ∈ kwargs.
Proof.
  induction kwargs as [|[k' v'] kwargs IH]; cbn; [discriminate|].
  destruct (decide (k' = k)) as [->|Hne].
  - intros [= ->]. left.
  - intros Hget. right. exact (IH Hget).
Qed.

Lemma validate_call_Raise (args : list value) (kwargs : list (string * value))
    (arg_names : list string) (type_hints : gmap string hint) (e : exn) :
  validate_call args kwargs arg_names type_hints = Raise e →
  (∃ i arg, args !! i = Some arg
            ∧ check_positional_arg arg_names type_hints i arg = Raise e)
  ∨ (∃ k, k ∈ kwargs.*1 ∧ check_keyword_arg kwargs type_hints k = Raise e).
Proof.
  rewrite validate_call_first_failure.
  destruct (first_failure _) as [e'|] eqn:Hff; [|discriminate].
  intros [= ->]. apply first_failure_elem_of in Hff.
  apply elem_of_app in Hff as [Hpos|Hkw].
  - left. unfold positional_verdicts in Hpos.
    apply elem_of_lookup_imap in Hpos as (i & arg & Hverdict & Harg).
    by exists i, arg.
  - right. unfold keyword_verdicts in Hkw.
    apply list_elem_of_fmap in Hkw as (k & Hverdict & Hk). by exists k.
Qed.

(** X3: an [AssertionError] of the checks reports a real mismatch: the
    parameter it names has the canonical entry it shows, a value of the
    class it shows was supplied for that parameter (by position under a
    name other than ['self'], or by keyword), and that value is no
    instance of the entry. *)
Theorem X3_AssertionError_reports_a_real_mismatch (args : list value)
    (kwargs : list (string * value)) (arg_names : list string)
    (type_hints : gmap string hint) (a : string) (ty : pytype) (acc : hint) :
  validate_call args kwargs arg_names type_hints = Raise (AssertionError a ty acc) →
  type_hints !! a = Some acc
  ∧ ∃ arg, type_of arg = ty ∧ isinstance arg acc = Ok false
           ∧ ((∃ i, args !! i = Some arg ∧ arg_names !! i = Some a ∧ a ≠ "self")
              ∨ (a, arg) ∈ kwargs).
Proof.
  intros Hcall.
  apply validate_call_Raise in Hcall as [(i & arg & Harg & Hv)|(k & Hk & Hv)].
  - apply check_positional_arg_AssertionError in Hv
      as (Hname & Hself & Hacc & _ & Hinst & ->).
    split; [exact Hacc|]. exists arg. repeat split; [exact Hinst|].
    left. by exists i.
  - revert Hv. unfold check_keyword_arg, dict_getitem.
    destruct (type_hints !! k) as [acc'|] eqn:Hacc; [rewrite bind_Ok | discriminate].
    destruct (eq_Any acc'); [discriminate|].
    destruct (kwargs_getitem_elem_of _ _ Hk) as [arg Harg]. rewrite Harg, bind_Ok.
    destruct (isinstance arg acc') as [[]|e] eqn:Hinst; cbn.
    + discriminate.
    + intros [= <- <- <-]. split; [exact Hacc|]. exists arg.
      repeat split; [exact Hinst|]. right. by apply kwargs_getitem_Ok_elem_of.
    + intros [= ->]. apply isinstance_of_raises in Hinst. discriminate Hinst.
Qed.

Lemma X3_AssertionError_reports_a_real_mismatch_witness :
  _make_typings_comparable (annotations spec_int_str) !! "b"
    = Some (HClass builtins.str)
  ∧ ∃ arg, type_of arg = builtins.int
           ∧ isinstance arg (HClass builtins.str) = Ok false
           ∧ ((∃ i, [VInt 1] !! i = Some arg ∧ ["a"; "b"] !! i = Some "b"
                    ∧ "b" ≠ "self")
              ∨ ("b", arg) ∈ [("b", VInt 5)]).
Proof.
  apply (X3_AssertionError_reports_a_real_mismatch [VInt 1] [("b", VInt 5)]
           ["a"; "b"] (_make_typings_comparable (annotations spec_int_str))
           "b" builtins.int (HClass builtins.str)).
  reflexivity.
Defined.

(** X4: the checks raise [KeyError] for a name only when that name has no
    canonical entry and a value was supplied under it, by position (the
    name not being ['self']) or by keyword. *)
Theorem X4_KeyError_names_an_undeclared_parameter (args : list value)
    (kwargs : list (string * value)) (arg_names : list string)
    (type_hints : gmap string hint) (k : string) :
  validate_call args kwargs arg_names type_hints = Raise (KeyError k) →
  type_hints !! k = None
  ∧ ((∃ i arg, args !! i = Some arg ∧ arg_names !! i = Some k ∧ k ≠ "self")
     ∨ k ∈ kwargs.*1).
Proof.
  intros Hcall.
  apply validate_call_Raise in Hcall as [(i & arg & Harg & Hv)|(k' & Hk & Hv)].
  - revert Hv. unfold check_positional_arg, list_getitem, dict_getitem.
    destruct (arg_names !! i) as [name|] eqn:Hname; [rewrite bind_Ok | discriminate].
    destruct (decide (name = "self")) as [|Hself]; [discriminate|].
    destruct (type_hints !! name) as [acc|] eqn:Hacc.
    + rewrite bind_Ok. destruct (eq_Any acc); [discriminate|].
      destruct (isinstance arg acc) as [[]|e] eqn:Hinst; cbn; try discriminate.
      intros [= ->]. apply isinstance_of_raises in Hinst. discriminate Hinst.
    + cbn. intros [= <-]. split; [exact Hacc|]. left. by exists i, arg.
  - revert Hv. unfold check_keyword_arg, dict_getitem.
    destruct (type_hints !! k') as [acc|] eqn:Hacc.
    + rewrite bind_Ok. destruct (eq_Any acc); [discriminate|].
      destruct (kwargs_getitem_elem_of _ _ Hk) as [arg Harg]. rewrite Harg, bind_Ok.
      destruct (isinstance arg acc) as [[]|e] eqn:Hinst; cbn; try discriminate.
      intros [= ->]. apply isinstance_of_raises in Hinst. discriminate Hinst.
    + cbn. intros [= <-]. split; [exact Hacc|]. by right.
Qed.

Lemma X4_KeyError_names_an_undeclared_parameter_witness :
  _make_typings_comparable (annotations spec_method) !! "self" = None
  ∧ ((∃ i arg, (@nil value) !! i = Some arg ∧ ["self"; "x"] !! i = Some "self"
               ∧ "self" ≠ "self")
     ∨ "self" ∈ [("self", VNone)].*1).
Proof.
  apply (X4_KeyError_names_an_undeclared_parameter [] [("self", VNone)]
           ["self"; "x"] (_make_typings_comparable (annotations spec_method)) "self").
  reflexivity.
Defined.

(** X5: the checks raise [IndexError] only when the call has more
    positional arguments than the function has named parameters. *)
Theorem X5_IndexError_means_surplus_positional (args : list value)
    (kwargs : list (string * value)) (arg_names : list string)
    (type_hints : gmap string hint) :
  validate_call args kwargs arg_names type_hints = Raise IndexError →
  (List.length arg_names < List.length args)%nat.
Proof.
  intros Hcall.
  apply validate_call_Raise in Hcall as [(i & arg & Harg & Hv)|(k & Hk & Hv)].
  - apply lookup_lt_Some in Harg.
    revert Hv. unfold check_positional_arg, list_getitem, dict_getitem.
    destruct (arg_names !! i) as [name|] eqn:Hname.
    + rewrite bind_Ok. destruct (decide (name = "self")); [discriminate|].
      destruct (type_hints !! name) as [acc|]; [rewrite bind_Ok | discriminate].
      destruct (eq_Any acc); [discriminate|].
      destruct (isinstance arg acc) as [[]|e] eqn:Hinst; cbn; try discriminate.
      intros [= ->]. apply isinstance_of_raises in Hinst. discriminate Hinst.
    + intros _. apply lookup_ge_None in Hname. lia.
  - revert Hv. unfold check_keyword_arg, dict_getitem.
    destruct (type_hints !! k) as [acc|]; [rewrite bind_Ok | discriminate].
    destruct (eq_Any acc); [discriminate|].
    destruct (kwargs_getitem_elem_of _ _ Hk) as [arg Harg]. rewrite Harg, bind_Ok.
    destruct (isinstance arg acc) as [[]|e] eqn:Hinst; cbn; try discriminate.
    intros [= ->]. apply isinstance_of_raises in Hinst. discriminate Hinst.
Qed.

Lemma X5_IndexError_means_surplus_positional_witness :
  (List.length ["a"] < List.length [VInt 1; VInt 2])%nat.
Proof.
  apply (X5_IndexError_means_surplus_positional [VInt 1; VInt 2] [] ["a"]
           (_make_typings_comparable (annotations spec_a_int))).
  reflexivity.
Defined.

(** ** What the checks look at *)

Lemma check_positional_arg_same_class (arg_names : list string)
    (type_hints : gmap string hint) (i : nat) (arg arg' : value) :
  type_of arg = type_of arg' →
  check_positional_arg arg_names type_hints i arg
  = check_positional_arg arg_names type_hints i arg'.
Proof.
  intros Hty. unfold check_positional_arg, isinstance. by rewrite Hty.
Qed.

Lemma kwargs_getitem_same_class (kwargs kwargs' : list (string * value)) (k : string) :
  Forall2 (λ p p', p.1 = p'.1 ∧ type_of p.2 = type_of p'.2) kwargs kwargs' →
  match kwargs_getitem kwargs k, kwargs_getitem kwargs' k with
  | Ok v, Ok v' => type_of v = type_of v'
  | Raise e, Raise e' => e = e'
  | _, _ => False
  end.
Proof.
  induction 1 as [|[k1 v1] [k2 v2] kwargs kwargs' [Hk Hty] _ IH]; cbn in *.
  - reflexivity.
  - subst k2. destruct (decide (k1 = k)); [exact Hty | exact IH].
Qed.

Lemma check_keyword_arg_same_class (kwargs kwargs' : list (string * value))
    (type_hints : gmap string hint) (k : string) :
  Forall2 (λ p p', p.1 = p'.1 ∧ type_of p.2 = type_of p'.2) kwargs kwargs' →
  check_keyword_arg kwargs type_hints k = check_keyword_arg kwargs' type_hints k.
Proof.
  intros Hsame. pose proof (kwargs_getitem_same_class _ _ k Hsame) as Hget.
  unfold check_keyword_arg, isinstance.
  destruct (dict_getitem type_hints k) as [acc|e]; [rewrite !bind_Ok | reflexivity].
  destruct (eq_Any acc); [reflexivity|].
  destruct (kwargs_getitem kwargs k) as [v|e], (kwargs_getitem kwargs' k) as [v'|e'];
    try contradiction.
  - rewrite !bind_Ok. by rewrite Hget.
  - cbn. by rewrite Hget.
Qed.

(** X6: the checks see of a value nothing but its class: two calls whose
    positional arguments have the same classes, and whose keywords are the
    same names in the same order with values of the same classes, are
    checked with the same outcome, whatever the values hold. *)
Theorem X6_checks_depend_on_classes_only (args args' : list value)
    (kwargs kwargs' : list (string * value)) (arg_names : list string)
    (type_hints : gmap string hint) :
  Forall2 (λ v v', type_of v = type_of v') args args' →
  Forall2 (λ p p', p.1 = p'.1 ∧ type_of p.2 = type_of p'.2) kwargs kwargs' →
  validate_call args kwargs arg_names type_hints
  = validate_call args' kwargs' arg_names type_hints.
Proof.
  intros Hargs Hkwargs.
  assert (Hpos : ∀ i, for_enumerate (check_positional_arg arg_names type_hints) i args
                      = for_enumerate (check_positional_arg arg_names type_hints) i args').
  { induction Hargs as [|v v' l l' Hty _ IH]; intros i; [reflexivity|].
    cbn [for_enumerate]. rewrite (check_positional_arg_same_class _ _ _ _ _ Hty).
    by rewrite IH. }
  assert (Hkeys : kwargs.*1 = kwargs'.*1).
  { clear -Hkwargs. induction Hkwargs as [|p p' l l' [Hk _] _ IH]; [reflexivity|].
    cbn. by rewrite Hk, IH. }
  unfold validate_call, _check_positional_args, _check_keyword_args.
  rewrite Hpos, <- Hkeys.
  rewrite (for_each_ext (check_keyword_arg kwargs type_hints)
             (check_keyword_arg kwargs' type_hints)); [reflexivity|].
  apply Forall_forall. intros k _. by apply check_keyword_arg_same_class.
Qed.

Lemma X6_checks_depend_on_classes_only_witness :
  validate_call [VList [VInt 1; VInt 2]] [("m", VDict [])] ["l"; "m"]
    (_make_typings_comparable
       {[ "l" := typing.List (HClass builtins.int);
          "m" := typing.Dict (HClass builtins.str) (HClass builtins.int) ]})
  = validate_call [VList [VStr "one"]] [("m", VDict [(VInt 1, VNone)])] ["l"; "m"]
      (_make_typings_comparable
         {[ "l" := typing.List (HClass builtins.int);
            "m" := typing.Dict (HClass builtins.str) (HClass builtins.int) ]}).
Proof.
  apply (X6_checks_depend_on_classes_only
           [VList [VInt 1; VInt 2]] [VList [VStr "one"]]
           [("m", VDict [])] [("m", VDict [(VInt 1, VNone)])]).
  - repeat constructor.
  - repeat constructor.
Defined.

(** ** Keywords and positions *)

(** X7: a value supplied by keyword is checked the way it is checked by
    position, for every parameter whose name is not ['self']: the two
    checks of one argument give the same outcome, and a call that passes
    the first parameter by keyword is checked like the call that passes it
    by position. *)
Theorem X7_keyword_checked_like_position (arg_names : list string)
    (type_hints : gmap string hint) (kwargs : list (string * value)) (i : nat)
    (a : string) (arg : value) :
  arg_names !! i = Some a → a ≠ "self" →
  kwargs_getitem kwargs a = Ok arg →
  check_keyword_arg kwargs type_hints a
  = check_positional_arg arg_names type_hints i arg
  ∧ validate_call [] [(a, arg)] (a :: arg_names) type_hints
    = validate_call [arg] [] (a :: arg_names) type_hints.
Proof.
  intros Hname Hself Hget.
  assert (Hstep : ∀ names j kw, names !! j = Some a → kwargs_getitem kw a = Ok arg →
            check_keyword_arg kw type_hints a
            = check_positional_arg names type_hints j arg).
  { intros names j kw Hj Hkw.
    unfold check_keyword_arg, check_positional_arg, list_getitem.
    rewrite Hj, bind_Ok. destruct (decide (a = "self")); [done|].
    destruct (dict_getitem type_hints a) as [acc|e]; [rewrite !bind_Ok | reflexivity].
    destruct (eq_Any acc); [reflexivity|]. by rewrite Hkw. }
  split; [by apply Hstep|].
  unfold validate_call, _check_positional_args, _check_keyword_args.
  cbn [for_enumerate for_each fmap list_fmap fst].
  rewrite (Hstep (a :: arg_names) 0%nat [(a, arg)]).
  - by destruct (check_positional_arg (a :: arg_names) type_hints 0 arg) as [[]|e].
  - reflexivity.
  - cbn. by destruct (decide (a = a)).
Qed.

Lemma X7_keyword_checked_like_position_witness :
  check_keyword_arg [("b", VInt 5)]
    (_make_typings_comparable (annotations spec_int_str)) "b"
  = check_positional_arg ["a"; "b"]
      (_make_typings_comparable (annotations spec_int_str)) 1 (VInt 5)
  ∧ validate_call [] [("b", VInt 5)] ("b" :: ["a"; "b"])
      (_make_typings_comparable (annotations spec_int_str))
    = validate_call [VInt 5] [] ("b" :: ["a"; "b"])
        (_make_typings_comparable (annotations spec_int_str)).
Proof.
  apply (X7_keyword_checked_like_position ["a"; "b"]
           (_make_typings_comparable (annotations spec_int_str))
           [("b", VInt 5)] 1 "b" (VInt 5));
    [reflexivity | discriminate | reflexivity].
Defined.

(** X8: the exemption of ['self'] holds by position only. A receiver that
    is no instance of what is declared for ['self'] passes when it is bound
    by position, and raises the [AssertionError] of ['self'] when the same
    value is passed as the keyword [self]. *)
Theorem X8_self_is_checked_as_a_keyword (arg_names : list string)
    (type_hints : gmap string hint) (kwargs : list (string * value))
    (recv : value) (acc : hint) :
  type_hints !! "self" = Some acc → eq_Any acc = false →
  isinstance recv acc = Ok false →
  validate_call [recv] [] ("self" :: arg_names) type_hints = Ok ()
  ∧ validate_call [] (("self", recv) :: kwargs) ("self" :: arg_names) type_hints
    = Raise (AssertionError "self" (type_of recv) acc).
Proof.
  intros Hacc Hany Hinst. split; [reflexivity|].
  unfold validate_call, _check_positional_args, _check_keyword_args.
  cbn [for_enumerate for_each fmap list_fmap fst]. rewrite bind_Ok.
  rewrite (check_keyword_arg_declared _ _ recv "self" acc); [|cbn|done|done].
  - by rewrite Hinst.
  - reflexivity.
Qed.

Lemma X8_self_is_checked_as_a_keyword_witness :
  validate_call [VInt 7] [] ("self" :: ["x"])
    (_make_typings_comparable (annotations spec_method_self_str)) = Ok ()
  ∧ validate_call [] (("self", VInt 7) :: [("x", VStr "s")]) ("self" :: ["x"])
      (_make_typings_comparable (annotations spec_method_self_str))
    = Raise (AssertionError "self" (type_of (VInt 7)) (HClass builtins.str)).
Proof.
  apply (X8_self_is_checked_as_a_keyword ["x"]
           (_make_typings_comparable (annotations spec_method_self_str))
           [("x", VStr "s")] (VInt 7) (HClass builtins.str)); reflexivity.
Defined.

(** ** Other shapes of declaration *)

(** Both checks of a value against a canonical entry that is a tuple of
    classes. *)
Lemma checks_against_classes (arg_names : list string)
    (type_hints : gmap string hint) (kwargs : list (string * value)) (i : nat)
    (a : string) (arg : value) (cs : list pytype) :
  type_hints !! a = Some (HTuple (HClass <$> cs)) →
  arg_names !! i = Some a → a ≠ "self" →
  kwargs_getitem kwargs a = Ok arg →
  check_positional_arg arg_names type_hints i arg = verdict_for_classes a cs arg
  ∧ check_keyword_arg kwargs type_hints a = verdict_for_classes a cs arg.
Proof.
  intros Hacc Hname Hself Hkw. split.
  - rewrite (check_positional_arg_declared _ _ _ _ _ _ Hname Hself Hacc eq_refl).
    apply isinstance_classes_verdict.
  - rewrite (check_keyword_arg_declared _ _ _ _ _ Hkw Hacc eq_refl).
    apply isinstance_classes_verdict.
Qed.

(** X9: only [int] is widened. A parameter declared with any other class
    keeps that class as its canonical entry, and a value supplied for it,
    by position or by keyword, passes exactly when it is an instance of
    the class; otherwise the check raises the [AssertionError] naming the
    parameter, the class of the value and the declared class. *)
Theorem X9_class_other_than_int_is_kept (types_dict : gmap string hint)
    (arg_names : list string) (kwargs : list (string * value)) (i : nat)
    (a : string) (arg : value) (c : pytype) :
  types_dict !! a = Some (HClass c) → c ≠ builtins.int →
  arg_names !! i = Some a → a ≠ "self" →
  kwargs_getitem kwargs a = Ok arg →
  _make_typings_comparable types_dict !! a = Some (HClass c)
  ∧ check_positional_arg arg_names (_make_typings_comparable types_dict) i arg
    = (if issubclass (type_of arg) c then Ok ()
       else Raise (AssertionError a (type_of arg) (HClass c)))
  ∧ check_keyword_arg kwargs (_make_typings_comparable types_dict) a
    = (if issubclass (type_of arg) c then Ok ()
       else Raise (AssertionError a (type_of arg) (HClass c))).
Proof.
  intros Hdecl Hc Hname Hself Hkw.
  assert (Hacc : _make_typings_comparable types_dict !! a = Some (HClass c)).
  { rewrite lookup_make_typings_comparable, Hdecl. cbn [fmap option_fmap option_map].
    by rewrite make_typing_comparable_class, (bool_decide_eq_false_2 _ Hc). }
  split; [exact Hacc|]. split.
  - by rewrite (check_positional_arg_declared _ _ _ _ _ _ Hname Hself Hacc eq_refl).
  - by rewrite (check_keyword_arg_declared _ _ _ _ _ Hkw Hacc eq_refl).
Qed.

Lemma X9_class_other_than_int_is_kept_witness :
  _make_typings_comparable (annotations spec_x_float) !! "x"
    = Some (HClass builtins.float)
  ∧ check_positional_arg ["x"] (_make_typings_comparable (annotations spec_x_float))
      0 (VInt 1)
    = (if issubclass (type_of (VInt 1)) builtins.float then Ok ()
       else Raise (AssertionError "x" (type_of (VInt 1)) (HClass builtins.float)))
  ∧ check_keyword_arg [("x", VInt 1)]
      (_make_typings_comparable (annotations spec_x_float)) "x"
    = (if issubclass (type_of (VInt 1)) builtins.float then Ok ()
       else Raise (AssertionError "x" (type_of (VInt 1)) (HClass builtins.float))).
Proof.
  apply (X9_class_other_than_int_is_kept (annotations spec_x_float) ["x"]
           [("x", VInt 1)] 0 "x" (VInt 1) builtins.float);
    [reflexivity | discriminate | reflexivity | discriminate | reflexivity].
Defined.

(** X10: a plain tuple of classes given as annotation is normalised like
    the [Union] of these classes: the classes in their order, with
    [np.int64] after them when [int] is one of them; a value passes exactly
    when it is an instance of one of these. *)
Theorem X10_tuple_annotation_is_widened (types_dict : gmap string hint)
    (arg_names : list string) (kwargs : list (string * value)) (i : nat)
    (a : string) (arg : value) (cs : list pytype) :
  types_dict !! a = Some (HTuple (HClass <$> cs)) →
  arg_names !! i = Some a → a ≠ "self" →
  kwargs_getitem kwargs a = Ok arg →
  _make_typings_comparable types_dict !! a = Some (HTuple (HClass <$> widened cs))
  ∧ check_positional_arg arg_names (_make_typings_comparable types_dict) i arg
    = verdict_for_classes a (widened cs) arg
  ∧ check_keyword_arg kwargs (_make_typings_comparable types_dict) a
    = verdict_for_classes a (widened cs) arg.
Proof.
  intros Hdecl Hname Hself Hkw.
  assert (Hacc : _make_typings_comparable types_dict !! a
                 = Some (HTuple (HClass <$> widened cs))).
  { rewrite lookup_make_typings_comparable, Hdecl. cbn [fmap option_fmap option_map].
    rewrite make_typing_comparable_tuple, int_in_classes. unfold widened.
    destruct (bool_decide (builtins.int ∈ cs)); [|reflexivity].
    by rewrite fmap_app. }
  split; [exact Hacc|]. by apply checks_against_classes.
Qed.

Lemma X10_tuple_annotation_is_widened_witness :
  _make_typings_comparable (annotations spec_t_tuple_hint) !! "t"
    = Some (HTuple (HClass <$> widened [builtins.int; builtins.str]))
  ∧ check_positional_arg ["t"]
      (_make_typings_comparable (annotations spec_t_tuple_hint)) 0 (VNpInt64 3)
    = verdict_for_classes "t" (widened [builtins.int; builtins.str]) (VNpInt64 3)
  ∧ check_keyword_arg [("t", VNpInt64 3)]
      (_make_typings_comparable (annotations spec_t_tuple_hint)) "t"
    = verdict_for_classes "t" (widened [builtins.int; builtins.str]) (VNpInt64 3).
Proof.
  apply (X10_tuple_annotation_is_widened (annotations spec_t_tuple_hint) ["t"]
           [("t", VNpInt64 3)] 0 "t" (VNpInt64 3) [builtins.int; builtins.str]);
    [reflexivity | reflexivity | discriminate | reflexivity].
Defined.

(** X11: a subscripted generic alias whose origin is none of [list],
    [dict] and [tuple] is not collapsed to its origin: its canonical entry
    is the tuple of its type arguments, widened for [int]. A value is
    checked against the type arguments, not against the origin: for
    [Set[int]] an [int] passes and a [set] does not. *)
Theorem X11_other_alias_is_checked_against_its_arguments
    (types_dict : gmap string hint) (arg_names : list string)
    (kwargs : list (string * value)) (i : nat) (a : string) (arg : value)
    (orig : origin) (cs : list pytype) :
  types_dict !! a = Some (HGenericAlias orig (HClass <$> cs)) →
  in_list_dict_tuple (get_origin (HGenericAlias orig (HClass <$> cs))) = None →
  arg_names !! i = Some a → a ≠ "self" →
  kwargs_getitem kwargs a = Ok arg →
  _make_typings_comparable types_dict !! a = Some (HTuple (HClass <$> widened cs))
  ∧ check_positional_arg arg_names (_make_typings_comparable types_dict) i arg
    = verdict_for_classes a (widened cs) arg
  ∧ check_keyword_arg kwargs (_make_typings_comparable types_dict) a
    = verdict_for_classes a (widened cs) arg.
Proof.
  intros Hdecl Horig Hname Hself Hkw.
  assert (Hacc : _make_typings_comparable types_dict !! a
                 = Some (HTuple (HClass <$> widened cs))).
  { rewrite lookup_make_typings_comparable, Hdecl. cbn [fmap option_fmap option_map].
    rewrite (make_typing_comparable_alias _ _ Horig), int_in_classes. unfold widened.
    destruct (bool_decide (builtins.int ∈ cs)); [|reflexivity].
    by rewrite fmap_app. }
  split; [exact Hacc|]. by apply checks_against_classes.
Qed.

Lemma X11_other_alias_is_checked_against_its_arguments_witness :
  _make_typings_comparable (annotations spec_s_set_int) !! "s"
    = Some (HTuple (HClass <$> widened [builtins.int]))
  ∧ check_positional_arg ["s"]
      (_make_typings_comparable (annotations spec_s_set_int)) 0 (VInstance set_class)
    = verdict_for_classes "s" (widened [builtins.int]) (VInstance set_class)
  ∧ check_keyword_arg [("s", VInstance set_class)]
      (_make_typings_comparable (annotations spec_s_set_int)) "s"
    = verdict_for_classes "s" (widened [builtins.int]) (VInstance set_class).
Proof.
  apply (X11_other_alias_is_checked_against_its_arguments
           (annotations spec_s_set_int) ["s"] [("s", VInstance set_class)] 0 "s"
           (VInstance set_class) (OClass set_class) [builtins.int]);
    [reflexivity | reflexivity | reflexivity | discriminate | reflexivity].
Defined.

(** [def f(s: Set[int])]: [f(5)] runs the body, [f(set())] does not. *)
Example set_of_int_takes_int_refuses_set :
  enforce_type_hints counting_body spec_s_set_int [VInt 5] [] 0 = (Ok VNone, 1)
  ∧ enforce_type_hints counting_body spec_s_set_int [VInstance set_class] [] 0
    = (Raise (AssertionError "s" set_class
                (HTuple [HClass builtins.int; HClass np.int64])), 0).
Proof. split; reflexivity. Qed.

(** ** Generic aliases inside a union *)

Lemma isinstance_of_classes_then_alias (ty : pytype) (cs : list pytype)
    (orig : origin) (elems rest : list hint) :
  isinstance_of ty (HTuple ((HClass <$> cs) ++ HGenericAlias orig elems :: rest))
  = if existsb (issubclass ty) cs then Ok true else Raise TypeError.
Proof.
  rewrite isinstance_of_tuple_app, isinstance_of_classes.
  destruct (existsb (issubclass ty) cs); reflexivity.
Qed.

(** X12: only an alias at the top of a declaration is collapsed. A
    subscripted alias that is a member of a [Union] or [Optional] stays in
    the canonical tuple, and the instance check raises [TypeError] when it
    reaches it: with the classes [cs] before the alias, a value passes when
    it is an instance of one of [cs], and the check raises [TypeError] for
    every other value, whatever follows the alias. *)
Theorem X12_alias_inside_union_raises_TypeError (types_dict : gmap string hint)
    (arg_names : list string) (kwargs : list (string * value)) (i : nat)
    (a : string) (arg : value) (cs : list pytype) (orig : origin)
    (elems rest : list hint) :
  types_dict !! a
    = Some (typing.Union ((HClass <$> cs) ++ HGenericAlias orig elems :: rest)) →
  arg_names !! i = Some a → a ≠ "self" →
  kwargs_getitem kwargs a = Ok arg →
  check_positional_arg arg_names (_make_typings_comparable types_dict) i arg
    = (if instance_of_some cs arg then Ok () else Raise TypeError)
  ∧ check_keyword_arg kwargs (_make_typings_comparable types_dict) a
    = (if instance_of_some cs arg then Ok () else Raise TypeError).
Proof.
  intros Hdecl Hname Hself Hkw.
  assert (Hacc : ∃ rest', _make_typings_comparable types_dict !! a
            = Some (HTuple ((HClass <$> cs) ++ HGenericAlias orig elems :: rest'))).
  { rewrite lookup_make_typings_comparable, Hdecl. cbn [fmap option_fmap option_map].
    unfold typing.Union. rewrite make_typing_comparable_alias by reflexivity.
    destruct (int_in _).
    - exists (rest ++ [HClass np.int64])%list.
      by rewrite <- app_assoc, <- app_comm_cons.
    - by exists rest. }
  destruct Hacc as [rest' Hacc]. unfold instance_of_some. split.
  - rewrite (check_positional_arg_declared _ _ _ _ _ _ Hname Hself Hacc eq_refl).
    unfold isinstance. rewrite isinstance_of_classes_then_alias.
    by destruct (existsb _ cs).
  - rewrite (check_keyword_arg_declared _ _ _ _ _ Hkw Hacc eq_refl).
    unfold isinstance. rewrite isinstance_of_classes_then_alias.
    by destruct (existsb _ cs).
Qed.

Lemma X12_alias_inside_union_raises_TypeError_witness :
  check_positional_arg ["o"]
    (_make_typings_comparable (annotations spec_o_str_or_list)) 0 (VList [VInt 1])
    = (if instance_of_some [builtins.str] (VList [VInt 1]) then Ok ()
       else Raise TypeError)
  ∧ check_keyword_arg [("o", VList [VInt 1])]
      (_make_typings_comparable (annotations spec_o_str_or_list)) "o"
    = (if instance_of_some [builtins.str] (VList [VInt 1]) then Ok ()
       else Raise TypeError).
Proof.
  apply (X12_alias_inside_union_raises_TypeError (annotations spec_o_str_or_list)
           ["o"] [("o", VList [VInt 1])] 0 "o" (VList [VInt 1]) [builtins.str]
           (OClass builtins.list) [HClass builtins.int] []);
    [reflexivity | reflexivity | discriminate | reflexivity].
Defined.

(** [def f(o: Optional[List[int]])]: neither [None] nor a list passes, the
    call raises [TypeError]; with [Union[str, List[int]]] a string passes
    and a list raises. *)
Example optional_list_always_raises :
  enforce_type_hints counting_body spec_o_optional_list [VNone] [] 0
  = (Raise TypeError, 0)
  ∧ enforce_type_hints counting_body spec_o_optional_list [VList [VInt 1]] [] 0
    = (Raise TypeError, 0)
  ∧ enforce_type_hints counting_body spec_o_str_or_list [VStr "s"] [] 0
    = (Ok VNone, 1)
  ∧ enforce_type_hints counting_body spec_o_str_or_list [VList [VInt 1]] [] 0
    = (Raise TypeError, 0).
Proof. repeat split. Qed.

(** ** The wildcard *)

Lemma make_typing_comparable_Any (arg_type : hint) :
  make_typing_comparable arg_type = HAny ↔ arg_type = HAny.
Proof.
  split; [|by intros ->].
  destruct arg_type as [c| |o elems|items|r]; try done.
  - rewrite make_typing_comparable_class. by case_bool_decide.
  - destruct (in_list_dict_tuple (get_origin (HGenericAlias o elems)))
      as [c|] eqn:Horig.
    + unfold make_typing_comparable. by rewrite Horig.
    + rewrite (make_typing_comparable_alias _ _ Horig). by destruct (int_in elems).
  - rewrite make_typing_comparable_tuple. by destruct (int_in items).
Qed.

(** X13: the normaliser makes no wildcard and removes none: the canonical
    entry of a parameter is [typing.Any] exactly when the parameter is
    declared [typing.Any] itself. *)
Theorem X13_wildcard_entries_are_the_declared_ones (types_dict : gmap string hint)
    (a : string) :
  _make_typings_comparable types_dict !! a = Some typing.Any
  ↔ types_dict !! a = Some typing.Any.
Proof.
  rewrite lookup_make_typings_comparable. unfold typing.Any.
  destruct (types_dict !! a) as [arg_type|]; cbn; [|done].
  split; intros [= H]; f_equal; by apply make_typing_comparable_Any.
Qed.

(** ** The order of the keywords *)

Lemma kwargs_getitem_NoDup (kwargs : list (string * value)) (k : string) (v : value) :
  NoDup kwargs.*1 → (k, v) ∈ kwargs → kwargs_getitem kwargs k = Ok v.
Proof.
  induction kwargs as [|[k' v'] kwargs IH]; cbn; intros Hnd Hin.
  - by apply elem_of_nil in Hin.
  - apply NoDup_cons in Hnd as [Hnotin Hnd].
    apply elem_of_cons in Hin as [[= -> ->]|Hin].
    + by destruct (decide (k' = k')).
    + destruct (decide (k' = k)) as [->|Hne]; [|by apply IH].
      exfalso. apply Hnotin. apply list_elem_of_fmap. by exists (k, v).
Qed.

Lemma check_keyword_args_Ok (kwargs : list (string * value))
    (type_hints : gmap string hint) :
  _check_keyword_args kwargs type_hints = Ok ()
  ↔ Forall (λ k, check_keyword_arg kwargs type_hints k = Ok ()) kwargs.*1.
Proof.
  unfold _check_keyword_args. rewrite for_each_first_failure.
  destruct (first_failure _) as [e|] eqn:Hff.
  - split; [discriminate|]. intros Hall.
    assert (Hnone : first_failure (check_keyword_arg kwargs type_hints <$> kwargs.*1)
                    = None) by (apply first_failure_None; by apply Forall_fmap).
    congruence.
  - split; [|done]. intros _. apply first_failure_None, Forall_fmap in Hff.
    exact Hff.
Qed.

(** X14: whether the keywords of a call pass their checks does not depend
    on the order in which they are written: only which failure is raised
    first does. *)
Theorem X14_keyword_order_does_not_change_success
    (kwargs kwargs' : list (string * value)) (type_hints : gmap string hint) :
  kwargs ≡ₚ kwargs' → NoDup kwargs.*1 →
  _check_keyword_args kwargs type_hints = Ok ()
  ↔ _check_keyword_args kwargs' type_hints = Ok ().
Proof.
  intros Hperm Hnd.
  assert (Hnd' : NoDup kwargs'.*1) by (by rewrite <- Hperm).
  assert (Hsame : ∀ k, k ∈ kwargs.*1 →
            check_keyword_arg kwargs type_hints k
            = check_keyword_arg kwargs' type_hints k).
  { intros k Hk. destruct (kwargs_getitem_elem_of _ _ Hk) as [v Hv].
    pose proof (kwargs_getitem_Ok_elem_of _ _ _ Hv) as Hin.
    assert (Hv' : kwargs_getitem kwargs' k = Ok v).
    { apply kwargs_getitem_NoDup; [exact Hnd'|]. by rewrite <- Hperm. }
    unfold check_keyword_arg. by rewrite Hv, Hv'. }
  rewrite !check_keyword_args_Ok, <- Hperm.
  rewrite !Forall_forall. split; intros Hall k Hk.
  - rewrite <- (Hsame k Hk). by apply Hall.
  - rewrite (Hsame k Hk). by apply Hall.
Qed.

Lemma X14_keyword_order_does_not_change_success_witness :
  _check_keyword_args [("a", VInt 1); ("b", VStr "s")]
    (_make_typings_comparable (annotations spec_int_str)) = Ok ()
  ↔ _check_keyword_args [("b", VStr "s"); ("a", VInt 1)]
      (_make_typings_comparable (annotations spec_int_str)) = Ok ().
Proof.
  apply (X14_keyword_order_does_not_change_success
           [("a", VInt 1); ("b", VStr "s")] [("b", VStr "s"); ("a", VInt 1)]
           (_make_typings_comparable (annotations spec_int_str))).
  - apply perm_swap.
  - cbn. apply NoDup_cons. split; [|apply NoDup_singleton].
    intros Hin. apply list_elem_of_singleton in Hin. discriminate Hin.
Defined.

(** ** Entries that play no part *)

(** X15: the checks read the canonical entries of the names under which a
    value is supplied, and no other: an entry for the return value, or for
    a parameter left to its default, changes nothing to the outcome of a
    call. *)
Theorem X15_only_supplied_names_are_looked_up (args : list value)
    (kwargs : list (string * value)) (arg_names : list string)
    (type_hints type_hints' : gmap string hint) :
  (∀ i arg k, args !! i = Some arg → arg_names !! i = Some k →
              type_hints !! k = type_hints' !! k) →
  (∀ k, k ∈ kwargs.*1 → type_hints !! k = type_hints' !! k) →
  validate_call args kwargs arg_names type_hints
  = validate_call args kwargs arg_names type_hints'.
Proof.
  intros Hpos Hkw. rewrite !validate_call_first_failure.
  assert (Hp : positional_verdicts args arg_names type_hints
               = positional_verdicts args arg_names type_hints').
  { unfold positional_verdicts. apply imap_ext. intros i arg Harg.
    unfold check_positional_arg, list_getitem, dict_getitem.
    destruct (arg_names !! i) as [k|] eqn:Hname; [rewrite !bind_Ok | reflexivity].
    destruct (decide (k = "self")); [reflexivity|].
    by rewrite (Hpos i arg k Harg Hname). }
  assert (Hk : keyword_verdicts kwargs type_hints
               = keyword_verdicts kwargs type_hints').
  { unfold keyword_verdicts. apply list_fmap_ext. intros j k Hj.
    unfold check_keyword_arg, dict_getitem.
    rewrite (Hkw k); [reflexivity|]. by apply list_elem_of_lookup_2 in Hj. }
  by rewrite Hp, Hk.
Qed.

Lemma X15_only_supplied_names_are_looked_up_witness :
  validate_call [VInt 1] [] ["a"; "b"]
    (_make_typings_comparable (annotations spec_int_str))
  = validate_call [VInt 1] [] ["a"; "b"]
      (_make_typings_comparable
         (<["return" := HObject "None"]> (delete "b" (annotations spec_int_str)))).
Proof.
  apply (X15_only_supplied_names_are_looked_up [VInt 1] [] ["a"; "b"]
           (_make_typings_comparable (annotations spec_int_str))
           (_make_typings_comparable
              (<["return" := HObject "None"]> (delete "b" (annotations spec_int_str))))).
  - intros [|i] arg k Harg Hname; [|destruct i; discriminate Harg].
    injection Hname as <-. reflexivity.
  - intros k Hk. by apply elem_of_nil in Hk.
Defined.

(** * Fail-fast validation *)














